(** * A shallow embedding of [disassemble_z80.py] (class [Z80Disassembler])

    The disassembler object carries [data] (the image), a cursor [pos], the
    base address [start_addr] and the label dictionary [labels].  Its
    methods read and update that object, and a Python exception (here only
    [TypeError], raised when [None] reaches a format string or a
    comparison) aborts the whole run.  We model the object as a record and
    the methods in a state-and-exception monad over it. *)

From Stdlib Require Import ZArith String Ascii List Lia.
From stdpp Require Import base gmap strings list.

Import ListNotations.
Open Scope Z_scope.

(** ** Python values used by the disassembler *)

Inductive py_exc := TypeError.

Record Dis := mkDis {
  data : list Z;             (* self.data : bytes *)
  pos : nat;                 (* self.pos *)
  start_addr : Z;            (* self.start_addr *)
  labels : gmap Z string     (* self.labels : dict int -> str *)
}.

Definition set_pos (s : Dis) (p : nat) : Dis :=
  mkDis (data s) p (start_addr s) (labels s).

Definition set_labels (s : Dis) (l : gmap Z string) : Dis :=
  mkDis (data s) (pos s) (start_addr s) l.

(** ** The state-and-exception monad *)

Definition M (A : Type) : Type := Dis -> py_exc + (A * Dis).

Global Instance M_ret : MRet M := fun A a s => inr (a, s).
Global Instance M_bind : MBind M :=
  fun A B f m s => match m s with inl e => inl e | inr (a, s') => f a s' end.

Definition get : M Dis := fun s => inr (s, s).
Definition put (s : Dis) : M unit := fun _ => inr (tt, s).
Definition raise {A} (e : py_exc) : M A := fun _ => inl e.

(** Using a value that may be [None] in an f-string or in [>]: Python
    raises [TypeError] on [None]. *)
Definition need {A} (o : option A) : M A :=
  match o with Some a => mret a | None => raise TypeError end.

(** ** Python's [format(x, '0<w>X')] *)

Definition hex_digit (d : Z) : ascii :=
  nth (Z.to_nat d)
    ["0";"1";"2";"3";"4";"5";"6";"7";"8";"9";"A";"B";"C";"D";"E";"F"]%char
    "0"%char.

Fixpoint digits_aux (base : Z) (fuel : nat) (n : Z) (acc : string) : string :=
  match fuel with
  | O => acc
  | S f =>
      let acc' := String (hex_digit (n mod base)) acc in
      if n <? base then acc' else digits_aux base f (n / base) acc'
  end.

(** Digits of a non-negative integer in base 10 or 16 (upper case), no
    padding: Python's [str(n)] and [format(n, 'X')]. *)
Definition radix_str (base n : Z) : string :=
  digits_aux base (Pos.size_nat (Z.to_pos n)) n EmptyString.

Definition hex_str (n : Z) : string := radix_str 16 n.
Definition dec_str (n : Z) : string := radix_str 10 n.

Fixpoint zeros (k : nat) : string :=
  match k with O => EmptyString | S k' => String "0"%char (zeros k') end.

Definition pad_left (w : nat) (s : string) : string :=
  (zeros (w - String.length s)%nat ++ s)%string.

(** [f"{x:0wX}"]: the sign comes first and counts towards the width. *)
Definition py_hex (w : nat) (x : Z) : string :=
  if x <? 0 then ("-" ++ pad_left (w - 1)%nat (hex_str (- x)))%string
  else pad_left w (hex_str x).

Definition fmt02 (x : Z) : string := py_hex 2 x.
Definition fmt04 (x : Z) : string := py_hex 4 x.

(** ** The byte cursor: [read_byte], [peek_byte], [read_word] *)

Definition read_byte : M (option Z) :=
  s ← get;
  if (length (data s) <=? pos s)%nat then mret None
  else put (set_pos s (S (pos s))) ;; mret (Some (nth (pos s) (data s) 0)).

Definition peek_byte (offset : nat) : M (option Z) :=
  s ← get;
  if (length (data s) <=? pos s + offset)%nat then mret None
  else mret (Some (nth (pos s + offset) (data s) 0)).

Definition read_word : M (option Z) :=
  s ← get;
  if (length (data s) <=? pos s + 1)%nat then mret None
  else
    let byte1 := nth (pos s) (data s) 0 in
    let byte2 := nth (pos s + 1) (data s) 0 in
    put (set_pos s (pos s + 2)%nat) ;; mret (Some (Z.lor byte1 (Z.shiftl byte2 8))).

(** ** Labels: [format_addr] and [get_label] *)

Definition format_addr (addr : Z) : string := ("L" ++ fmt04 addr)%string.

Definition get_label (addr : Z) : M string :=
  s ← get;
  match labels s !! addr with
  | Some l => mret l
  | None =>
      let l := format_addr addr in
      put (set_labels s (<[addr := l]> (labels s))) ;; mret l
  end.

(** ** Register and condition tables *)

Definition REG_8 : list string := ["B"; "C"; "D"; "E"; "H"; "L"; "(HL)"; "A"]%string.
Definition REG_16 : list string := ["BC"; "DE"; "HL"; "SP"]%string.
Definition REG_16_ALT : list string := ["BC"; "DE"; "HL"; "AF"]%string.
Definition COND : list string := ["NZ"; "Z"; "NC"; "C"; "PO"; "PE"; "P"; "M"]%string.

Definition reg8 (i : Z) : string := nth (Z.to_nat i) REG_8 EmptyString.

(** ** Instruction shapes of the decoder

    Each [return] of [disassemble_instruction] and of the prefix handlers
    is one of these shapes: a text and the size the method returns. *)

Definition result := (option string * nat)%type.

(** [return "<text>", n] *)
Definition op_fixed (t : string) (n : nat) : M result := mret (Some t, n).

(** [byte = self.read_byte(); return f"<pre>&{byte:02X}<post>", n] *)
Definition op_byte (pre post : string) (n : nat) : M result :=
  b ← read_byte; b ← need b; mret (Some (pre ++ fmt02 b ++ post)%string, n).

(** [word = self.read_word(); return f"<pre>&{word:04X}<post>", n] *)
Definition op_word (pre post : string) (n : nat) : M result :=
  w ← read_word; w ← need w; mret (Some (pre ++ fmt04 w ++ post)%string, n).

(** [offset = self.read_byte(); if offset > 127: offset -= 256;
     target = addr + 2 + offset; return f"<mn>{self.get_label(target)}", 2] *)
Definition op_rel (mn : string) (addr : Z) : M result :=
  o ← read_byte; o ← need o;
  let offset := if 127 <? o then o - 256 else o in
  l ← get_label (addr + 2 + offset);
  mret (Some (mn ++ l)%string, 2%nat).

(** [word = self.read_word(); return f"<mn>{self.get_label(word)}", 3] *)
Definition op_abs (mn : string) : M result :=
  w ← read_word; w ← need w; l ← get_label w; mret (Some (mn ++ l)%string, 3%nat).

(** [return f"DB &{opcode:02X}", 1] *)
Definition op_db (opcode : Z) : M result := mret (Some ("DB &" ++ fmt02 opcode)%string, 1%nat).

(** ** The base table: the "Main instruction set" part of
    [disassemble_instruction], once the opcode byte has been read and is
    none of the prefixes CB, ED, DD, FD.  The [elif] chain is kept as a
    chain of [if]s; a fall-through reaches the final [DB &XX] return. *)

Definition ALU_OPS : list string :=
  ["ADD"; "ADC"; "SUB"; "SBC"; "AND"; "XOR"; "OR"; "CP"]%string.

Definition main_instruction (addr opcode : Z) : M result :=
  if Z.eqb opcode 0x00 then op_fixed "NOP" 1 else
  if Z.eqb opcode 0x01 then op_word "LD BC,&" "" 3 else
  if Z.eqb opcode 0x02 then op_fixed "LD (BC),A" 1 else
  if Z.eqb opcode 0x03 then op_fixed "INC BC" 1 else
  if Z.eqb opcode 0x04 then op_fixed "INC B" 1 else
  if Z.eqb opcode 0x05 then op_fixed "DEC B" 1 else
  if Z.eqb opcode 0x06 then op_byte "LD B,&" "" 2 else
  if Z.eqb opcode 0x07 then op_fixed "RLCA" 1 else
  if Z.eqb opcode 0x08 then op_fixed "EX AF,AF'" 1 else
  if Z.eqb opcode 0x09 then op_fixed "ADD HL,BC" 1 else
  if Z.eqb opcode 0x0A then op_fixed "LD A,(BC)" 1 else
  if Z.eqb opcode 0x0B then op_fixed "DEC BC" 1 else
  if Z.eqb opcode 0x0C then op_fixed "INC C" 1 else
  if Z.eqb opcode 0x0D then op_fixed "DEC C" 1 else
  if Z.eqb opcode 0x0E then op_byte "LD C,&" "" 2 else
  if Z.eqb opcode 0x0F then op_fixed "RRCA" 1 else
  if Z.eqb opcode 0x10 then op_rel "DJNZ " addr else
  if Z.eqb opcode 0x11 then op_word "LD DE,&" "" 3 else
  if Z.eqb opcode 0x12 then op_fixed "LD (DE),A" 1 else
  if Z.eqb opcode 0x13 then op_fixed "INC DE" 1 else
  if Z.eqb opcode 0x14 then op_fixed "INC D" 1 else
  if Z.eqb opcode 0x15 then op_fixed "DEC D" 1 else
  if Z.eqb opcode 0x16 then op_byte "LD D,&" "" 2 else
  if Z.eqb opcode 0x17 then op_fixed "RLA" 1 else
  if Z.eqb opcode 0x18 then op_rel "JR " addr else
  if Z.eqb opcode 0x19 then op_fixed "ADD HL,DE" 1 else
  if Z.eqb opcode 0x1A then op_fixed "LD A,(DE)" 1 else
  if Z.eqb opcode 0x1B then op_fixed "DEC DE" 1 else
  if Z.eqb opcode 0x1C then op_fixed "INC E" 1 else
  if Z.eqb opcode 0x1D then op_fixed "DEC E" 1 else
  if Z.eqb opcode 0x1E then op_byte "LD E,&" "" 2 else
  if Z.eqb opcode 0x1F then op_fixed "RRA" 1 else
  (* 0x20-0x2F *)
  if (0x20 <=? opcode) && (opcode <=? 0x27) then
    if Z.eqb opcode 0x20 then op_rel "JR NZ," addr else
    if Z.eqb opcode 0x21 then op_word "LD HL,&" "" 3 else
    if Z.eqb opcode 0x22 then op_word "LD (&" "),HL" 3 else
    if Z.eqb opcode 0x23 then op_fixed "INC HL" 1 else
    if Z.eqb opcode 0x24 then op_fixed "INC H" 1 else
    if Z.eqb opcode 0x25 then op_fixed "DEC H" 1 else
    if Z.eqb opcode 0x26 then op_byte "LD H,&" "" 2 else
    if Z.eqb opcode 0x27 then op_fixed "DAA" 1 else
    op_db opcode
  (* LD r,r (0x40-0x7F) *)
  else if (0x40 <=? opcode) && (opcode <=? 0x7F) then
    let src := Z.land (Z.shiftr opcode 3) 0x07 in
    let dst := Z.land opcode 0x07 in
    if Z.eqb opcode 0x76 then op_fixed "HALT" 1
    else op_fixed ("LD " ++ reg8 dst ++ "," ++ reg8 src)%string 1
  (* Arithmetic/logical operations (0x80-0xBF) *)
  else if (0x80 <=? opcode) && (opcode <=? 0xBF) then
    let op := Z.shiftr opcode 3 in
    let reg := Z.land opcode 0x07 in
    op_fixed (nth (Z.to_nat (Z.land (op - 0x10) 0x07)) ALU_OPS EmptyString
              ++ " A," ++ reg8 reg)%string 1
  (* RET, POP, JP, CALL, PUSH (0xC0-0xFF) *)
  else if (0xC0 <=? opcode) && (opcode <=? 0xFF) then
    if Z.eqb opcode 0xC0 then op_fixed "RET NZ" 1 else
    if Z.eqb opcode 0xC1 then op_fixed "POP BC" 1 else
    if Z.eqb opcode 0xC2 then op_abs "JP NZ," else
    if Z.eqb opcode 0xC3 then op_abs "JP " else
    if Z.eqb opcode 0xC4 then op_abs "CALL NZ," else
    if Z.eqb opcode 0xC5 then op_fixed "PUSH BC" 1 else
    if Z.eqb opcode 0xC6 then op_byte "ADD A,&" "" 2 else
    if Z.eqb opcode 0xC7 then op_fixed "RST 0x00" 1 else
    if Z.eqb opcode 0xC8 then op_fixed "RET Z" 1 else
    if Z.eqb opcode 0xC9 then op_fixed "RET" 1 else
    if Z.eqb opcode 0xCA then op_abs "JP Z," else
    if Z.eqb opcode 0xCB then op_db opcode (* handled by the prefix handler *) else
    if Z.eqb opcode 0xCC then op_abs "CALL Z," else
    if Z.eqb opcode 0xCD then op_abs "CALL " else
    if Z.eqb opcode 0xCE then op_byte "ADC A,&" "" 2 else
    if Z.eqb opcode 0xCF then op_fixed "RST 0x08" 1 else
    if Z.eqb opcode 0xD0 then op_fixed "RET NC" 1 else
    if Z.eqb opcode 0xD1 then op_fixed "POP DE" 1 else
    if Z.eqb opcode 0xD2 then op_abs "JP NC," else
    if Z.eqb opcode 0xD3 then op_byte "OUT (&" "),A" 2 else
    if Z.eqb opcode 0xD4 then op_abs "CALL NC," else
    if Z.eqb opcode 0xD5 then op_fixed "PUSH DE" 1 else
    if Z.eqb opcode 0xD6 then op_byte "SUB &" "" 2 else
    if Z.eqb opcode 0xD7 then op_fixed "RST 0x10" 1 else
    if Z.eqb opcode 0xD8 then op_fixed "RET C" 1 else
    if Z.eqb opcode 0xD9 then op_fixed "EXX" 1 else
    if Z.eqb opcode 0xDA then op_abs "JP C," else
    if Z.eqb opcode 0xDB then op_byte "IN A,(&" ")" 2 else
    if Z.eqb opcode 0xDC then op_abs "CALL C," else
    if Z.eqb opcode 0xDD then op_db opcode (* handled by the prefix handler *) else
    if Z.eqb opcode 0xDE then op_byte "SBC A,&" "" 2 else
    if Z.eqb opcode 0xDF then op_fixed "RST 0x18" 1 else
    if Z.eqb opcode 0xE0 then op_fixed "RET PO" 1 else
    if Z.eqb opcode 0xE1 then op_fixed "POP HL" 1 else
    if Z.eqb opcode 0xE2 then op_abs "JP PO," else
    if Z.eqb opcode 0xE3 then op_fixed "EX (SP),HL" 1 else
    if Z.eqb opcode 0xE4 then op_abs "CALL PO," else
    if Z.eqb opcode 0xE5 then op_fixed "PUSH HL" 1 else
    if Z.eqb opcode 0xE6 then op_byte "AND &" "" 2 else
    if Z.eqb opcode 0xE7 then op_fixed "RST 0x20" 1 else
    if Z.eqb opcode 0xE8 then op_fixed "RET PE" 1 else
    if Z.eqb opcode 0xE9 then op_fixed "JP (HL)" 1 else
    if Z.eqb opcode 0xEA then op_abs "JP PE," else
    if Z.eqb opcode 0xEB then op_fixed "EX DE,HL" 1 else
    if Z.eqb opcode 0xEC then op_abs "CALL PE," else
    if Z.eqb opcode 0xED then op_db opcode (* handled by the prefix handler *) else
    if Z.eqb opcode 0xEE then op_byte "XOR &" "" 2 else
    if Z.eqb opcode 0xEF then op_fixed "RST 0x28" 1 else
    if Z.eqb opcode 0xF0 then op_fixed "RET P" 1 else
    if Z.eqb opcode 0xF1 then op_fixed "POP AF" 1 else
    if Z.eqb opcode 0xF2 then op_abs "JP P," else
    if Z.eqb opcode 0xF3 then op_fixed "DI" 1 else
    if Z.eqb opcode 0xF4 then op_abs "CALL P," else
    if Z.eqb opcode 0xF5 then op_fixed "PUSH AF" 1 else
    if Z.eqb opcode 0xF6 then op_byte "OR &" "" 2 else
    if Z.eqb opcode 0xF7 then op_fixed "RST 0x30" 1 else
    if Z.eqb opcode 0xF8 then op_fixed "RET M" 1 else
    if Z.eqb opcode 0xF9 then op_fixed "LD SP,HL" 1 else
    if Z.eqb opcode 0xFA then op_abs "JP M," else
    if Z.eqb opcode 0xFB then op_fixed "EI" 1 else
    if Z.eqb opcode 0xFC then op_abs "CALL M," else
    if Z.eqb opcode 0xFD then op_db opcode (* handled by the prefix handler *) else
    if Z.eqb opcode 0xFE then op_byte "CP &" "" 2 else
    if Z.eqb opcode 0xFF then op_fixed "RST 0x38" 1 else
    op_db opcode
  (* If we don't recognize it, output as data *)
  else op_db opcode.

(** ** Prefix handlers *)

Definition CB_OPS : list string :=
  ["RLC"; "RRC"; "RL"; "RR"; "SLA"; "SRA"; "SLL"; "SRL"]%string.

(** [disassemble_cb_prefix]: bit operations, shifts, etc. *)
Definition disassemble_cb_prefix (addr : Z) : M result :=
  o ← read_byte;
  match o with
  | None => op_fixed "DB &CB" 1
  | Some opcode =>
      let bit_op := Z.land (Z.shiftr opcode 6) 0x03 in
      let reg := Z.land opcode 0x07 in
      if Z.eqb bit_op 0 then
        let op := Z.land (Z.shiftr opcode 3) 0x07 in
        op_fixed (nth (Z.to_nat op) CB_OPS EmptyString ++ " " ++ reg8 reg)%string 2
      else if Z.eqb bit_op 1 then
        let bit := Z.land (Z.shiftr opcode 3) 0x07 in
        op_fixed ("BIT " ++ dec_str bit ++ "," ++ reg8 reg)%string 2
      else if Z.eqb bit_op 2 then
        let bit := Z.land (Z.shiftr opcode 3) 0x07 in
        op_fixed ("RES " ++ dec_str bit ++ "," ++ reg8 reg)%string 2
      else if Z.eqb bit_op 3 then
        let bit := Z.land (Z.shiftr opcode 3) 0x07 in
        op_fixed ("SET " ++ dec_str bit ++ "," ++ reg8 reg)%string 2
      else op_fixed ("DB &CB,&" ++ fmt02 opcode)%string 2
  end.

(** [disassemble_ed_prefix]: extended instructions. *)
Definition disassemble_ed_prefix (addr : Z) : M result :=
  o ← read_byte;
  match o with
  | None => op_fixed "DB &ED" 1
  | Some opcode =>
      if Z.eqb opcode 0x44 || Z.eqb opcode 0x4C || Z.eqb opcode 0x54
         || Z.eqb opcode 0x5C || Z.eqb opcode 0x64 || Z.eqb opcode 0x6C
         || Z.eqb opcode 0x74 || Z.eqb opcode 0x7C then op_fixed "NEG" 2
      else if Z.eqb opcode 0x46 || Z.eqb opcode 0x4E || Z.eqb opcode 0x56
         || Z.eqb opcode 0x5E || Z.eqb opcode 0x66 || Z.eqb opcode 0x6E
         || Z.eqb opcode 0x76 || Z.eqb opcode 0x7E then op_fixed "IM 0" 2
      else if Z.eqb opcode 0x57 then op_fixed "LD A,I" 2
      else if Z.eqb opcode 0x5F then op_fixed "LD A,R" 2
      else if Z.eqb opcode 0x67 then op_fixed "RRD" 2
      else if Z.eqb opcode 0x6F then op_fixed "RLD" 2
      else if Z.eqb opcode 0xA0 then op_fixed "LDI" 2
      else if Z.eqb opcode 0xA1 then op_fixed "CPI" 2
      else if Z.eqb opcode 0xA2 then op_fixed "INI" 2
      else if Z.eqb opcode 0xA3 then op_fixed "OUTI" 2
      else if Z.eqb opcode 0xA8 then op_fixed "LDD" 2
      else if Z.eqb opcode 0xA9 then op_fixed "CPD" 2
      else if Z.eqb opcode 0xAA then op_fixed "IND" 2
      else if Z.eqb opcode 0xAB then op_fixed "OUTD" 2
      else if Z.eqb opcode 0xB0 then op_fixed "LDIR" 2
      else if Z.eqb opcode 0xB1 then op_fixed "CPIR" 2
      else if Z.eqb opcode 0xB2 then op_fixed "INIR" 2
      else if Z.eqb opcode 0xB3 then op_fixed "OTIR" 2
      else if Z.eqb opcode 0xB8 then op_fixed "LDDR" 2
      else if Z.eqb opcode 0xB9 then op_fixed "CPDR" 2
      else if Z.eqb opcode 0xBA then op_fixed "INDR" 2
      else if Z.eqb opcode 0xBB then op_fixed "OTDR" 2
      else op_fixed ("DB &ED,&" ++ fmt02 opcode)%string 2
  end.

(** [disassemble_dd_prefix]: IX register. *)
Definition disassemble_dd_prefix (addr : Z) : M result :=
  o ← read_byte;
  match o with
  | None => op_fixed "DB &DD" 1
  | Some opcode =>
      if Z.eqb opcode 0x21 then op_word "LD IX,&" "" 4
      else if Z.eqb opcode 0xE1 then op_fixed "POP IX" 2
      else if Z.eqb opcode 0xE5 then op_fixed "PUSH IX" 2
      else if Z.eqb opcode 0xE9 then op_fixed "JP (IX)" 2
      else if Z.eqb opcode 0x36 then
        byte ← read_byte;
        offset ← read_byte;
        offset ← need offset;                       (* offset > 127 *)
        let offset := if 127 <? offset then offset - 256 else offset in
        byte ← need byte;
        op_fixed ("LD (IX+&" ++ fmt02 offset ++ "),&" ++ fmt02 byte)%string 4
      else op_fixed ("DB &DD,&" ++ fmt02 opcode)%string 2
  end.

(** [disassemble_fd_prefix]: IY register. *)
Definition disassemble_fd_prefix (addr : Z) : M result :=
  o ← read_byte;
  match o with
  | None => op_fixed "DB &FD" 1
  | Some opcode =>
      if Z.eqb opcode 0x21 then op_word "LD IY,&" "" 4
      else if Z.eqb opcode 0xE1 then op_fixed "POP IY" 2
      else if Z.eqb opcode 0xE5 then op_fixed "PUSH IY" 2
      else if Z.eqb opcode 0xE9 then op_fixed "JP (IY)" 2
      else op_fixed ("DB &FD,&" ++ fmt02 opcode)%string 2
  end.

(** ** [disassemble_instruction] *)

Definition disassemble_instruction : M result :=
  s ← get;
  if (length (data s) <=? pos s)%nat then mret (None, 0%nat) else
  let addr := start_addr s + Z.of_nat (pos s) in
  o ← read_byte;
  match o with
  | None => mret (None, 0%nat)
  | Some opcode =>
      (* Handle multi-byte opcodes *)
      if Z.eqb opcode 0xCB then disassemble_cb_prefix addr
      else if Z.eqb opcode 0xED then disassemble_ed_prefix addr
      else if Z.eqb opcode 0xDD then disassemble_dd_prefix addr
      else if Z.eqb opcode 0xFD then disassemble_fd_prefix addr
      (* Main instruction set *)
      else main_instruction addr opcode
  end.

(** ** [disassemble_all]

    One iteration of the [while] loop produces one output line
    [f"{label_line}{inst}"].  We keep, next to the text, the address and
    the size the decoder returned for it (the locals [addr] and [size]);
    the output string is rebuilt from these records exactly as the code
    builds it. *)

Definition newline : string := String "010"%char EmptyString.

Record line := mkLine {
  l_addr : Z;          (* addr *)
  l_label : string;    (* label_line *)
  l_inst : string;     (* inst *)
  l_size : nat         (* size *)
}.

Definition is_label (s : Dis) (addr : Z) : bool :=
  match labels s !! addr with Some _ => true | None => false end.

(** [if max_lines and line_count >= max_lines: break] *)
Definition stop_now (max_lines : option nat) (line_count : nat) : bool :=
  match max_lines with
  | Some m => negb (Nat.eqb m 0) && (m <=? line_count)%nat
  | None => false
  end.

(** The [while self.pos < len(self.data)] loop.  Every iteration consumes
    at least one byte, so [length data - pos] iterations suffice; [fuel]
    bounds the iterations (see [loop_fuel_enough]). *)
Fixpoint loop (fuel : nat) (max_lines : option nat) (line_count : nat) : M (list line) :=
  match fuel with
  | O => mret []
  | S fuel' =>
      s ← get;
      if (pos s <? length (data s))%nat then
        let addr := start_addr s + Z.of_nat (pos s) in
        '(inst, size) ← disassemble_instruction;
        match inst with
        | None => mret []
        | Some i =>
            s' ← get;
            nb ← peek_byte 0;
            let label_line :=
              if is_label s' addr || bool_decide (nb = Some 0xCD)
              then (format_addr addr ++ ":" ++ newline)%string
              else EmptyString in
            let ln := mkLine addr label_line i size in
            let line_count := S line_count in
            if stop_now max_lines line_count then mret [ln]
            else rest ← loop fuel' max_lines line_count; mret (ln :: rest)
        end
      else mret []
  end.

(** [f"{label_line}{inst}"] *)
Definition render_line (ln : line) : string := (l_label ln ++ l_inst ln)%string.

(** ["\n".join(output)] with [output[0] = f"ORG &{self.start_addr:04X}\n"] *)
Definition render (start : Z) (lines : list line) : string :=
  String.concat newline
    (("ORG &" ++ fmt04 start ++ newline)%string :: map render_line lines).

(** [Z80Disassembler(data, start_addr)]: a fresh object. *)
Definition init (image : list Z) (start : Z) : Dis := mkDis image 0 start ∅.

(** The decoded lines and the final object of [disassemble_all(max_lines)]. *)
Definition decode (image : list Z) (start : Z) (max_lines : option nat)
  : py_exc + (list line * Dis) :=
  loop (S (length image)) max_lines 0 (init image start).

(** [disassemble_all(max_lines)]: the returned text, or the exception. *)
Definition disassemble_all (image : list Z) (start : Z) (max_lines : option nat)
  : py_exc + string :=
  match decode image start max_lines with
  | inl e => inl e
  | inr (lines, _) => inr (render start lines)
  end.

(** * Auxiliary notions for the proofs *)

(** [Pres R m]: every successful run of [m] relates its initial and final
    objects by [R]. *)
Definition Pres (R : Dis -> Dis -> Prop) {A} (m : M A) : Prop :=
  forall s a s', m s = inr (a, s') -> R s s'.

(** Every label stored in the dictionary is [format_addr] of its key. *)
Definition canon (s : Dis) : Prop :=
  map_Forall (fun a l => l = format_addr a) (labels s).

(** How one method call may change the object: the image and the base
    are untouched, the cursor only moves forward and stays within the
    image, and labels are only added, each as [format_addr] of its key. *)
Record evolves (s s' : Dis) : Prop := {
  ev_data : data s' = data s;
  ev_start : start_addr s' = start_addr s;
  ev_pos : (pos s <= pos s')%nat;
  ev_bound : (pos s <= length (data s))%nat -> (pos s' <= length (data s))%nat;
  ev_labels : labels s ⊆ labels s';
  ev_canon : canon s -> canon s'
}.

(** [lo], [lo + 1], ..., [lo + n - 1]. *)
Fixpoint zrange (lo : Z) (n : nat) : list Z :=
  match n with O => [] | S n' => lo :: zrange (lo + 1) n' end.

(** [format_addr a] for [0 <= a <= 0xFFFF]: [L] and the four nibbles of
    [a] as upper-case hexadecimal digits, most significant first. *)
Definition four_digit_name (a : Z) : string :=
  String "L" (String (hex_digit (Z.shiftr a 12 mod 16))
    (String (hex_digit (Z.shiftr a 8 mod 16))
      (String (hex_digit (Z.shiftr a 4 mod 16))
        (String (hex_digit (a mod 16)) EmptyString)))).

(** * Size, safety and label relations on the methods *)

(** [SizeAdv k m]: the size [m] returns is the cursor advance plus [k],
    and for [k > 0] the text is not [None]. *)
Definition SizeAdv (k : nat) (m : M result) : Prop :=
  forall s r s', m s = inr (r, s') ->
    (pos s + snd r = pos s' + k)%nat /\ ((0 < k)%nat -> fst r <> None).

(** [Safe k m]: [m] raises no exception when [k] bytes are left. *)
Definition Safe {A} (k : nat) (m : M A) : Prop :=
  forall s, (pos s + k <= length (data s))%nat -> exists a s', m s = inr (a, s').

(** Relations on the label map between two objects. *)
Definition same_labels (s s' : Dis) : Prop := labels s' = labels s.

Definition grow1 (s s' : Dis) : Prop :=
  labels s ⊆ labels s' /\ (size (labels s') <= S (size (labels s)))%nat.

(** Byte values, and the addresses a branch at [addr] can name: a
    16-bit absolute address or a relative one within [-126, +129]. *)
Definition is_byte (b : Z) : Prop := 0 <= b < 256.

Definition branch_target (addr a : Z) : Prop :=
  (0 <= a <= 0xFFFF) \/ (addr - 126 <= a <= addr + 129).

(** [new_in P s s']: the data is kept and, on a byte image, every label
    key added between [s] and [s'] satisfies [P]. *)
Definition new_in (P : Z -> Prop) (s s' : Dis) : Prop :=
  data s' = data s /\
  (Forall is_byte (data s) ->
   forall a l, labels s' !! a = Some l -> labels s !! a = None -> P a).

(** * Properties of the formatting helpers *)

Example py_hex_examples :
  fmt02 5 = "05"%string /\ fmt04 0 = "0000"%string /\ fmt02 (-3) = "-3"%string
  /\ fmt04 (-126) = "-07E"%string /\ fmt04 65536 = "10000"%string
  /\ fmt04 48879 = "BEEF"%string /\ dec_str 7 = "7"%string
  /\ dec_str 0 = "0"%string.
Proof. vm_compute. repeat split. Qed.

(** * Frame properties of the methods

    For a reflexive and transitive [R], [Pres R] is closed under [bind]
    and [if], which lets it follow the [elif] chains. *)

Section Preservation.
Variable R : Dis -> Dis -> Prop.
Hypothesis R_refl : forall s, R s s.
Hypothesis R_trans : forall s1 s2 s3, R s1 s2 -> R s2 s3 -> R s1 s3.

Lemma Pres_ret {A} (a : A) : Pres R (mret a).
Proof. intros s b s' H. injection H as _ <-. apply R_refl. Qed.

Lemma Pres_bind {A B} (m : M A) (k : A -> M B) :
  Pres R m -> (forall a, Pres R (k a)) -> Pres R (x ← m; k x).
Proof.
  intros Hm Hk s b s' H. unfold mbind, M_bind in H.
  destruct (m s) as [e|[a s1]] eqn:E; [discriminate|].
  eapply R_trans; [eapply Hm; exact E | eapply Hk; exact H].
Qed.

Lemma Pres_if {A} (b : bool) (m1 m2 : M A) :
  Pres R m1 -> Pres R m2 -> Pres R (if b then m1 else m2).
Proof. destruct b; auto. Qed.

Lemma Pres_get : Pres R get.
Proof. intros s a s' H. injection H as _ <-. apply R_refl. Qed.

Lemma Pres_need {A} (o : option A) : Pres R (need o).
Proof. destruct o; [apply Pres_ret | intros ? ? ? H; discriminate]. Qed.

Lemma Pres_op_fixed t n : Pres R (op_fixed t n).
Proof. apply Pres_ret. Qed.

Lemma Pres_op_db opcode : Pres R (op_db opcode).
Proof. apply Pres_ret. Qed.
End Preservation.

Lemma evolves_refl s : evolves s s.
Proof. constructor; auto. Qed.

Lemma evolves_trans s1 s2 s3 : evolves s1 s2 -> evolves s2 s3 -> evolves s1 s3.
Proof.
  intros [D1 S1 P1 B1 L1 C1] [D2 S2 P2 B2 L2 C2]. constructor.
  - congruence.
  - congruence.
  - lia.
  - rewrite D1 in B2. auto.
  - etransitivity; eauto.
  - auto.
Qed.

Create HintDb pres.
#[local] Hint Resolve evolves_refl evolves_trans : pres.

Lemma read_byte_evolves : Pres evolves read_byte.
Proof.
  intros s a s' H. unfold read_byte, mbind, M_bind, get, put, mret, M_ret in H.
  destruct (length (data s) <=? pos s)%nat eqn:E; injection H as _ <-;
    [apply evolves_refl|].
  apply Nat.leb_gt in E. constructor; simpl; auto; lia.
Qed.

Lemma read_word_evolves : Pres evolves read_word.
Proof.
  intros s a s' H. unfold read_word, mbind, M_bind, get, put, mret, M_ret in H.
  destruct (length (data s) <=? pos s + 1)%nat eqn:E; injection H as _ <-;
    [apply evolves_refl|].
  apply Nat.leb_gt in E. constructor; simpl; auto; lia.
Qed.

Lemma peek_byte_evolves k : Pres evolves (peek_byte k).
Proof.
  intros s a s' H. unfold peek_byte, mbind, M_bind, get, mret, M_ret in H.
  destruct (length (data s) <=? pos s + k)%nat; injection H as _ <-;
    apply evolves_refl.
Qed.

Lemma get_label_evolves addr : Pres evolves (get_label addr).
Proof.
  intros s a s' H. unfold get_label, mbind, M_bind, get, put, mret, M_ret in H.
  destruct (labels s !! addr) eqn:E; injection H as _ <-; [apply evolves_refl|].
  constructor; simpl; auto.
  - by apply insert_subseteq.
  - intros C. unfold canon in *. simpl. by apply map_Forall_insert_2.
Qed.

(** Follow the structure of a method: binds, [if]s and [match]es, down to
    the cursor and label primitives. *)
Ltac solve_pres :=
  repeat first
    [ progress cbv beta zeta
    | apply (Pres_ret evolves evolves_refl)
    | apply (Pres_get evolves evolves_refl)
    | apply (Pres_need evolves evolves_refl)
    | apply (Pres_op_fixed evolves evolves_refl)
    | apply (Pres_op_db evolves evolves_refl)
    | apply read_byte_evolves
    | apply read_word_evolves
    | apply peek_byte_evolves
    | apply get_label_evolves
    | apply (Pres_bind evolves evolves_trans); [ | intro ]
    | apply (Pres_if evolves)
    | match goal with
      | |- Pres _ (match ?o with Some _ => _ | None => _ end) => destruct o
      | |- Pres _ (match ?p with (_, _) => _ end) => destruct p
      | |- Pres _ (match ?l with [] => _ | _ :: _ => _ end) => destruct l
      end ].

Lemma op_byte_evolves pre post n : Pres evolves (op_byte pre post n).
Proof. unfold op_byte. solve_pres. Qed.

Lemma op_word_evolves pre post n : Pres evolves (op_word pre post n).
Proof. unfold op_word. solve_pres. Qed.

Lemma op_rel_evolves mn addr : Pres evolves (op_rel mn addr).
Proof. unfold op_rel. solve_pres. Qed.

Lemma op_abs_evolves mn : Pres evolves (op_abs mn).
Proof. unfold op_abs. solve_pres. Qed.

Ltac solve_pres_ops :=
  repeat first
    [ apply op_byte_evolves | apply op_word_evolves | apply op_rel_evolves
    | apply op_abs_evolves | apply (Pres_op_fixed evolves evolves_refl)
    | apply (Pres_op_db evolves evolves_refl) | apply (Pres_if evolves) ].

Lemma main_instruction_evolves addr opcode : Pres evolves (main_instruction addr opcode).
Proof. unfold main_instruction. cbv zeta. solve_pres_ops. Qed.

Lemma cb_prefix_evolves addr : Pres evolves (disassemble_cb_prefix addr).
Proof. unfold disassemble_cb_prefix. solve_pres. Qed.

Lemma ed_prefix_evolves addr : Pres evolves (disassemble_ed_prefix addr).
Proof. unfold disassemble_ed_prefix. solve_pres. Qed.

Lemma dd_prefix_evolves addr : Pres evolves (disassemble_dd_prefix addr).
Proof. unfold disassemble_dd_prefix. solve_pres; apply op_word_evolves. Qed.

Lemma fd_prefix_evolves addr : Pres evolves (disassemble_fd_prefix addr).
Proof. unfold disassemble_fd_prefix. solve_pres; apply op_word_evolves. Qed.

#[local] Hint Resolve main_instruction_evolves cb_prefix_evolves ed_prefix_evolves
  dd_prefix_evolves fd_prefix_evolves : pres.

Lemma disassemble_instruction_evolves : Pres evolves disassemble_instruction.
Proof.
  unfold disassemble_instruction. solve_pres; auto with pres.
Qed.

(** Each decoded instruction consumes at least its opcode byte. *)
Lemma disassemble_instruction_progress s i n s' :
  disassemble_instruction s = inr ((Some i, n), s') -> (pos s < pos s')%nat.
Proof.
  intros H.
  unfold disassemble_instruction, mbind, M_bind, get, mret, M_ret in H.
  destruct (length (data s) <=? pos s)%nat eqn:E; [discriminate|].
  unfold read_byte, mbind, M_bind, get, put, mret, M_ret in H. rewrite E in H.
  cbv beta iota in H.
  set (s1 := set_pos s (S (pos s))) in H.
  set (opcode := nth (pos s) (data s) 0) in H.
  enough (evolves s1 s') as [_ _ P _ _ _] by (simpl in P; lia).
  destruct (Z.eqb opcode 0xCB); [eapply cb_prefix_evolves; exact H|].
  destruct (Z.eqb opcode 0xED); [eapply ed_prefix_evolves; exact H|].
  destruct (Z.eqb opcode 0xDD); [eapply dd_prefix_evolves; exact H|].
  destruct (Z.eqb opcode 0xFD); [eapply fd_prefix_evolves; exact H|].
  eapply main_instruction_evolves; exact H.
Qed.

Lemma loop_evolves fuel ml lc : Pres evolves (loop fuel ml lc).
Proof.
  revert lc. induction fuel as [|fuel IH]; intros lc; simpl.
  - solve_pres.
  - solve_pres; auto using disassemble_instruction_evolves.
Qed.

Lemma bind_run {A B} (m : M A) (k : A -> M B) s :
  (x ← m; k x) s = match m s with inl e => inl e | inr (a, s') => k a s' end.
Proof. reflexivity. Qed.

Lemma loop_S fuel ml lc :
  loop (S fuel) ml lc =
  (s ← get;
   if (pos s <? length (data s))%nat then
     let addr := start_addr s + Z.of_nat (pos s) in
     '(inst, size) ← disassemble_instruction;
     match inst with
     | None => mret []
     | Some i =>
         s' ← get;
         nb ← peek_byte 0;
         let label_line :=
           if is_label s' addr || bool_decide (nb = Some 0xCD)
           then (format_addr addr ++ ":" ++ newline)%string
           else EmptyString in
         let ln := mkLine addr label_line i size in
         if stop_now ml (S lc) then mret [ln]
         else rest ← loop fuel ml (S lc); mret (ln :: rest)
     end
   else mret []).
Proof. reflexivity. Qed.

(** The fuel of [decode] never cuts the [while] loop short: once it
    covers the bytes left, more fuel gives the same run. *)
Lemma loop_fuel_enough n m ml lc s :
  (length (data s) - pos s <= n)%nat -> (n <= m)%nat ->
  loop (S n) ml lc s = loop (S m) ml lc s.
Proof.
  revert m lc s. induction n as [|n IH]; intros m lc s Hn Hm.
  - rewrite !loop_S, !bind_run. cbn [get].
    replace (pos s <? length (data s))%nat with false
      by (symmetry; apply Nat.ltb_ge; lia). reflexivity.
  - destruct m as [|m]; [lia|].
    rewrite (loop_S (S n)), (loop_S (S m)), !bind_run. cbn [get].
    destruct (pos s <? length (data s))%nat eqn:Hlt; [|reflexivity].
    cbv zeta. rewrite !bind_run.
    destruct (disassemble_instruction s) as [e|[[[i|] size] s1]] eqn:Hd;
      [reflexivity| |reflexivity].
    pose proof (disassemble_instruction_progress _ _ _ _ Hd) as Hp.
    pose proof (disassemble_instruction_evolves _ _ _ Hd) as [Hd1 _ _ _ _ _].
    rewrite !bind_run. cbn [get]. rewrite !bind_run.
    unfold peek_byte. rewrite !bind_run. cbn [get].
    destruct (length (data s1) <=? pos s1 + 0)%nat;
      (destruct stop_now; [reflexivity|]);
      cbn [mret M_ret]; rewrite !bind_run;
      (rewrite (IH m); [reflexivity | rewrite Hd1; apply Nat.ltb_lt in Hlt; lia | lia]).
Qed.

Lemma decode_fuel_enough image start ml k :
  (length image <= k)%nat ->
  decode image start ml = loop (S k) ml 0 (init image start).
Proof. intros Hk. unfold decode. apply loop_fuel_enough; simpl; lia. Qed.

(** * Running the methods on a known object *)

Lemma read_byte_run s :
  (pos s < length (data s))%nat ->
  read_byte s = inr (Some (nth (pos s) (data s) 0), set_pos s (S (pos s))).
Proof.
  intros H. unfold read_byte. rewrite bind_run. cbn [get].
  replace (length (data s) <=? pos s)%nat with false
    by (symmetry; apply Nat.leb_gt; lia). reflexivity.
Qed.

Lemma read_byte_end s :
  (length (data s) <= pos s)%nat -> read_byte s = inr (None, s).
Proof.
  intros H. unfold read_byte. rewrite bind_run. cbn [get].
  replace (length (data s) <=? pos s)%nat with true
    by (symmetry; apply Nat.leb_le; lia). reflexivity.
Qed.

(** The dispatch on the opcode byte at the cursor. *)
Lemma disassemble_instruction_run s b :
  nth_error (data s) (pos s) = Some b ->
  disassemble_instruction s =
  (let addr := start_addr s + Z.of_nat (pos s) in
   if Z.eqb b 0xCB then disassemble_cb_prefix addr
   else if Z.eqb b 0xED then disassemble_ed_prefix addr
   else if Z.eqb b 0xDD then disassemble_dd_prefix addr
   else if Z.eqb b 0xFD then disassemble_fd_prefix addr
   else main_instruction addr b) (set_pos s (S (pos s))).
Proof.
  intros Hb.
  assert (Hlt : (pos s < length (data s))%nat)
    by (apply nth_error_Some; congruence).
  assert (Hn : nth (pos s) (data s) 0 = b) by (apply nth_error_nth; exact Hb).
  unfold disassemble_instruction. rewrite bind_run. cbn [get].
  replace (length (data s) <=? pos s)%nat with false
    by (symmetry; apply Nat.leb_gt; lia).
  rewrite bind_run, read_byte_run by exact Hlt. rewrite Hn. reflexivity.
Qed.

(** The [while] condition fails once the cursor is at the end. *)
Lemma loop_at_end fuel ml lc s :
  (length (data s) <= pos s)%nat -> loop fuel ml lc s = inr ([], s).
Proof.
  intros H. destruct fuel as [|fuel]; [reflexivity|].
  rewrite loop_S, bind_run. cbn [get].
  replace (pos s <? length (data s))%nat with false
    by (symmetry; apply Nat.ltb_ge; lia). reflexivity.
Qed.

(** Decide the comparisons of an [elif] chain that the hypotheses fix. *)
Ltac ztests :=
  repeat (match goal with
    | |- context [Z.eqb ?x ?y] =>
        first [ rewrite (proj2 (Z.eqb_neq x y)) by lia
              | rewrite (proj2 (Z.eqb_eq x y)) by lia ]
    | |- context [Z.leb ?x ?y] =>
        first [ rewrite (proj2 (Z.leb_le x y)) by lia
              | rewrite (proj2 (Z.leb_gt x y)) by lia ]
    | |- context [Z.ltb ?x ?y] =>
        first [ rewrite (proj2 (Z.ltb_lt x y)) by lia
              | rewrite (proj2 (Z.ltb_ge x y)) by lia ]
    end; cbn [andb orb negb]; cbv iota).

(** * The claims *)

(** C10: in the no-prefix state an opcode [b] with [0x40 <= b <= 0x7F]
    and [b <> 0x76] is the one-byte instruction
    [LD R[b & 7],R[(b >> 3) & 7]] with
    [R = [B, C, D, E, H, L, (HL), A]]: the low three bits choose the
    first operand, bits 5-3 the second; [0x76] is the one-byte [HALT]. *)
Theorem ld_r_r_grid (s : Dis) (b : Z) :
  nth_error (data s) (pos s) = Some b -> 0x40 <= b <= 0x7F ->
  let R := ["B"; "C"; "D"; "E"; "H"; "L"; "(HL)"; "A"]%string in
  disassemble_instruction s =
  inr ((Some (if Z.eqb b 0x76 then "HALT"%string
              else ("LD " ++ nth (Z.to_nat (Z.land b 7)) R EmptyString ++ ","
                    ++ nth (Z.to_nat (Z.land (Z.shiftr b 3) 7)) R EmptyString)%string),
        1%nat),
       set_pos s (S (pos s))).
Proof.
  intros Hb Hr R. rewrite (disassemble_instruction_run s b Hb). cbv zeta.
  ztests. unfold main_instruction. ztests.
  destruct (Z.eqb b 0x76); reflexivity.
Qed.

Lemma ld_r_r_grid_witness :
  disassemble_instruction (init [0x41] 0)
  = inr ((Some "LD C,B"%string, 1%nat), set_pos (init [0x41] 0) 1).
Proof. apply (ld_r_r_grid (init [0x41] 0) 0x41); [reflexivity | lia]. Defined.

(** C8: when the cursor stands on the last byte of the image and that byte
    is one of the prefixes CB, ED, DD, FD (a lone trailing prefix), the
    rest of the run raises nothing and emits exactly one line: the 1-byte
    raw-data instruction [DB &<prefix>] at that address; the follow-up
    byte is never read and the cursor ends at the end of the image. *)
Theorem trailing_prefix_byte (fuel : nat) (ml : option nat) (lc : nat)
    (s : Dis) (p : Z) :
  S (pos s) = length (data s) ->
  nth_error (data s) (pos s) = Some p ->
  In p [0xCB; 0xED; 0xDD; 0xFD] ->
  exists (label : string) (s' : Dis),
    loop (S fuel) ml lc s =
      inr ([mkLine (start_addr s + Z.of_nat (pos s)) label
                   ("DB &" ++ fmt02 p)%string 1], s')
    /\ pos s' = length (data s).
Proof.
  intros Hend Hb Hp.
  rewrite loop_S, bind_run. cbn [get].
  replace (pos s <? length (data s))%nat with true
    by (symmetry; apply Nat.ltb_lt; lia).
  cbv zeta. rewrite bind_run, (disassemble_instruction_run s p Hb).
  set (s1 := set_pos s (S (pos s))).
  assert (Hs1 : (length (data s1) <= pos s1)%nat) by (simpl; lia).
  destruct Hp as [<-|[<-|[<-|[<-|[]]]]]; cbn [Z.eqb Pos.eqb]; cbv iota;
    [ unfold disassemble_cb_prefix | unfold disassemble_ed_prefix
    | unfold disassemble_dd_prefix | unfold disassemble_fd_prefix ];
    rewrite bind_run, read_byte_end by exact Hs1; cbn [op_fixed mret M_ret];
    cbv beta iota;
    rewrite bind_run; cbn [get]; rewrite bind_run;
    unfold peek_byte; rewrite bind_run; cbn [get];
    (replace (length (data s1) <=? pos s1 + 0)%nat with true
      by (symmetry; apply Nat.leb_le; lia));
    cbn [mret M_ret];
    (destruct (stop_now ml (S lc));
     [ | rewrite bind_run, loop_at_end by exact Hs1 ]);
    eexists _, s1; (split; [reflexivity | simpl; lia]).
Qed.

Lemma trailing_prefix_byte_witness :
  exists (label : string) (s' : Dis),
    loop 1 None 1 (mkDis [0x00; 0xCB] 1 0 ∅)
    = inr ([mkLine 1 label "DB &CB" 1], s') /\ pos s' = 2%nat.
Proof.
  apply (trailing_prefix_byte 0 None 1 (mkDis [0x00; 0xCB] 1 0 ∅) 0xCB);
    [reflexivity | reflexivity | simpl; auto].
Defined.

(** C1: the empty image decodes to an empty program (the text is the
    [ORG] line alone), but decoding is not total: an instruction whose
    operand bytes are cut off by the end of the image reaches
    [f"...{None:02X}"] and raises [TypeError]; here [0x06] ([LD B,n])
    with no operand byte. *)
Theorem truncated_operand_raises :
  (forall start : Z, decode [] start None = inr ([], init [] start))
  /\ disassemble_all [] 0 None = inr ("ORG &0000" ++ newline)%string
  /\ disassemble_all [0x06] 0 None = inl TypeError.
Proof. split; [intros start; reflexivity | split; vm_compute; reflexivity]. Qed.

(** C2: the 2-byte self-loop [DJNZ -2] at address 0 is labelled (its own
    label is registered before the label test of its line), but a branch
    back to an instruction that was already emitted is not: in
    [NOP; JR -3] the [JR] targets address 0, [L0000] is in the dictionary
    at the end, and no [L0000:] line precedes the [NOP]. *)
Theorem backward_branch_unlabelled :
  decode [0x10; 0xFE] 0 None
  = inr ([mkLine 0 ("L0000:" ++ newline)%string "DJNZ L0000" 2],
         mkDis [0x10; 0xFE] 2 0 {[0 := "L0000"%string]})
  /\ decode [0x00; 0x18; 0xFD] 0 None
  = inr ([mkLine 0 "" "NOP" 1; mkLine 1 "" "JR L0000" 2],
         mkDis [0x00; 0x18; 0xFD] 3 0 {[0 := "L0000"%string]}).
Proof. split; vm_compute; reflexivity. Qed.





(** C4: the base table does not model every opcode.  The [elif] block
    commented [# 0x20-0x2F] only tests [0x20 <= opcode <= 0x27], and no
    branch covers 0x28-0x3F, so these 24 opcodes (e.g. 0x3E, [LD A,n])
    fall through to the 1-byte raw-data return [DB &XX] even when their
    operand bytes are present; every other opcode is decoded. *)
Theorem base_table_gap :
  disassemble_all [0x3E; 0x05] 0 None
  = inr ("ORG &0000" ++ newline ++ newline ++ "DB &3E" ++ newline ++ "DEC B")%string
  /\ List.filter (fun b => match disassemble_instruction (init [b; 0; 0] 0) with
                      | inr ((Some t, 1%nat), _) => String.prefix "DB &" t
                      | _ => false
                      end) (map Z.of_nat (seq 0 256))
     = map Z.of_nat (seq 40 24).  (* 0x28 .. 0x3F *)
Proof. split; vm_compute; reflexivity. Qed.

(** C5: the instruction lengths do not always add up to the image length,
    because a cut-off instruction is not turned into raw data: the run
    raises [TypeError] instead, for [LD B,n] without its byte, for
    [JP nn] with one address byte, and for [LD (IX+d),n] without [d]. *)
Theorem truncated_instruction_not_raw :
  decode [0x06] 0 None = inl TypeError
  /\ decode [0x00; 0xC3; 0x00] 0 None = inl TypeError
  /\ decode [0xDD; 0x36; 0x05] 0 None = inl TypeError.
Proof. repeat split; vm_compute; reflexivity. Qed.

(** C6: the image [3E 05 C3 00 00] at base 0 gives [DB &3E] (1 byte) at
    0, [DEC B] at 1 and [JP L0000] (3 bytes) at 2; [L0000] is registered
    only when the [JP] is decoded, after line 0 was emitted, so no label
    line is output. *)
Theorem ld_a_jp_example :
  decode [0x3E; 0x05; 0xC3; 0x00; 0x00] 0 None
  = inr ([mkLine 0 "" "DB &3E" 1; mkLine 1 "" "DEC B" 1; mkLine 2 "" "JP L0000" 3],
         mkDis [0x3E; 0x05; 0xC3; 0x00; 0x00] 5 0 {[0 := "L0000"%string]})
  /\ disassemble_all [0x3E; 0x05; 0xC3; 0x00; 0x00] 0 None
  = inr ("ORG &0000" ++ newline ++ newline ++ "DB &3E" ++ newline ++ "DEC B"
         ++ newline ++ "JP L0000")%string.
Proof. split; vm_compute; reflexivity. Qed.

(** C7, counterexample: [ED 00] at base 0 is one 2-byte raw-data line
    [DB &ED,&00]; the 0x00 is consumed with the prefix, not decoded as
    [NOP]. *)
Lemma ed_unmatched_two_bytes :
  decode [0xED; 0x00] 0 None
  = inr ([mkLine 0 "" "DB &ED,&00" 2], mkDis [0xED; 0x00] 2 0 ∅).
Proof. vm_compute. reflexivity. Qed.

Ltac split_not_in :=
  repeat match goal with
  | H : ~ In _ _ |- _ => simpl in H
  | H : ~ (_ \/ _) |- _ => apply Decidable.not_or in H; destruct H
  | H : ~ False |- _ => clear H
  end.

(** C7, amended: after an ED, DD or FD prefix, an opcode byte that no
    branch of the prefix handler matches is emitted together with the
    prefix as one 2-byte raw-data instruction [DB &<prefix>,&<byte>], and
    the cursor moves past both bytes: no byte is skipped or read twice. *)
Theorem unmatched_opcode_raw (s : Dis) (p b : Z) :
  nth_error (data s) (pos s) = Some p ->
  nth_error (data s) (S (pos s)) = Some b ->
  (p = 0xED /\ ~ In b [0x44; 0x4C; 0x54; 0x5C; 0x64; 0x6C; 0x74; 0x7C;
                       0x46; 0x4E; 0x56; 0x5E; 0x66; 0x6E; 0x76; 0x7E;
                       0x57; 0x5F; 0x67; 0x6F; 0xA0; 0xA1; 0xA2; 0xA3;
                       0xA8; 0xA9; 0xAA; 0xAB; 0xB0; 0xB1; 0xB2; 0xB3;
                       0xB8; 0xB9; 0xBA; 0xBB]
   \/ p = 0xDD /\ ~ In b [0x21; 0xE1; 0xE5; 0xE9; 0x36]
   \/ p = 0xFD /\ ~ In b [0x21; 0xE1; 0xE5; 0xE9]) ->
  disassemble_instruction s
  = inr ((Some ("DB &" ++ fmt02 p ++ ",&" ++ fmt02 b)%string, 2%nat),
         set_pos s (S (S (pos s)))).
Proof.
  intros Hp Hb Hcase.
  assert (Hlt : (S (pos s) < length (data s))%nat)
    by (apply nth_error_Some; congruence).
  rewrite (disassemble_instruction_run s p Hp). cbv zeta.
  destruct Hcase as [[-> Hn]|[[-> Hn]|[-> Hn]]]; split_not_in; ztests;
    [ unfold disassemble_ed_prefix | unfold disassemble_dd_prefix
    | unfold disassemble_fd_prefix ];
    rewrite bind_run, read_byte_run by (simpl; lia); cbn [pos data set_pos];
    rewrite (nth_error_nth _ _ _ Hb); cbv beta iota; ztests; reflexivity.
Qed.

Lemma unmatched_opcode_raw_witness :
  disassemble_instruction (init [0xED; 0x00] 0)
  = inr ((Some "DB &ED,&00"%string, 2%nat), set_pos (init [0xED; 0x00] 0) 2).
Proof.
  apply (unmatched_opcode_raw (init [0xED; 0x00] 0) 0xED 0x00);
    [reflexivity | reflexivity | left; split; [reflexivity | simpl; lia]].
Defined.

(** Every label line the loop emits is [L<addr>:] for the line's own
    address, or empty. *)
Lemma loop_label_lines fuel ml lc s lines s' :
  loop fuel ml lc s = inr (lines, s') ->
  Forall (fun ln => l_label ln = EmptyString
                    \/ l_label ln = (format_addr (l_addr ln) ++ ":" ++ newline)%string)
         lines.
Proof.
  revert lc s lines s'. induction fuel as [|fuel IH]; intros lc s lines s' H.
  - injection H as <- _. constructor.
  - rewrite loop_S, bind_run in H. cbn [get] in H.
    destruct (pos s <? length (data s))%nat; [|injection H as <- _; constructor].
    cbv zeta in H. rewrite bind_run in H.
    destruct (disassemble_instruction s) as [e|[[[i|] n] s1]];
      [discriminate| |injection H as <- _; constructor].
    cbv beta iota in H. rewrite !bind_run in H. cbn [get] in H.
    rewrite bind_run in H.
    destruct (peek_byte 0 s1) as [e|[nb s2]]; [discriminate|].
    set (ln := mkLine _ _ i n) in H.
    assert (Hln : l_label ln = EmptyString
                  \/ l_label ln = (format_addr (l_addr ln) ++ ":" ++ newline)%string)
      by (subst ln; simpl; destruct (_ || _); auto).
    destruct (stop_now ml (S lc)).
    + injection H as <- _. constructor; [exact Hln | constructor].
    + rewrite bind_run in H.
      destruct (loop fuel ml (S lc) s2) as [e|[rest s3]] eqn:Hl; [discriminate|].
      injection H as <- _. constructor; [exact Hln | exact (IH _ _ _ _ Hl)].
Qed.

Lemma zrange_in (a lo : Z) (n : nat) :
  lo <= a < lo + Z.of_nat n -> In a (zrange lo n).
Proof.
  revert lo. induction n as [|n IH]; intros lo H; simpl; [lia|].
  destruct (Z.eq_dec lo a) as [->|Hne]; [left; reflexivity|].
  right. apply IH. lia.
Qed.

(** C9, amended: label names are a function of the address alone.  Every
    entry that a run leaves in the dictionary maps its address [a] to
    [format_addr a], every label line is [format_addr] of its own line's
    address, and for [0 <= a <= 0xFFFF] the name is [L] and exactly four
    upper-case hex digits.  Outside that range the [{:04X}] format is a
    minimum width, see [negative_target_label]. *)
Theorem label_names_from_address :
  (forall (image : list Z) (start : Z) (ml : option nat) (lines : list line) (s : Dis),
     decode image start ml = inr (lines, s) ->
     (forall (a : Z) (l : string), labels s !! a = Some l -> l = format_addr a)
     /\ Forall (fun ln => l_label ln = EmptyString
                          \/ l_label ln = (format_addr (l_addr ln) ++ ":" ++ newline)%string)
               lines)
  /\ (forall a : Z, 0 <= a <= 0xFFFF -> format_addr a = four_digit_name a).
Proof.
  split.
  - intros image start ml lines s H. split.
    + pose proof (loop_evolves _ _ _ _ _ _ H) as [_ _ _ _ _ Hc].
      intros a l Hl. apply (Hc (map_Forall_empty _) a l Hl).
    + exact (loop_label_lines _ _ _ _ _ _ H).
  - assert (Hall : forallb (fun a => String.eqb (format_addr a) (four_digit_name a))
                     (zrange 0 (Z.to_nat 65536)) = true)
      by (vm_compute; reflexivity).
    intros a Ha. rewrite forallb_forall in Hall.
    apply String.eqb_eq, Hall, zrange_in. rewrite Z2Nat.id by lia. lia.
Qed.

Lemma label_names_from_address_witness :
  (forall (a : Z) (l : string),
      labels (mkDis [0x18; 0xFE] 2 0x4000 {[0x4000 := "L4000"%string]}) !! a = Some l ->
      l = format_addr a)
  /\ format_addr 0xBEEF = four_digit_name 0xBEEF.
Proof.
  split.
  - refine (proj1 (proj1 label_names_from_address [0x18; 0xFE] 0x4000 None
                     [mkLine 0x4000 ("L4000:" ++ newline)%string "JR L4000" 2]
                     (mkDis [0x18; 0xFE] 2 0x4000 {[0x4000 := "L4000"%string]}) _)).
    vm_compute. reflexivity.
  - apply (proj2 label_names_from_address 0xBEEF). lia.
Defined.

(** C9, counterexample: relative targets are not wrapped to 16 bits, and
    [{:04X}] is a minimum width with the sign first.  [JR -128] at address
    0 targets -126, whose label is [L-07E]: a [-] after the [L], not four
    hex digits. *)
Lemma negative_target_label :
  decode [0x18; 0x80] 0 None
  = inr ([mkLine 0 "" "JR L-07E" 2],
         mkDis [0x18; 0x80] 2 0 {[-126 := "L-07E"%string]})
  /\ String.get 1 (format_addr (-126)) = Some "-"%char.
Proof. split; vm_compute; reflexivity. Qed.

(** * Size, safety, tiling and labels of the listing *)

Lemma read_byte_cases s :
  ((length (data s) <= pos s)%nat /\ read_byte s = inr (None, s))
  \/ ((pos s < length (data s))%nat
      /\ read_byte s = inr (Some (nth (pos s) (data s) 0), set_pos s (S (pos s)))).
Proof.
  destruct (Nat.le_gt_cases (length (data s)) (pos s)) as [H|H].
  - left. split; [exact H | exact (read_byte_end s H)].
  - right. split; [exact H | exact (read_byte_run s H)].
Qed.

Lemma read_word_cases s :
  ((length (data s) <= pos s + 1)%nat /\ read_word s = inr (None, s))
  \/ ((pos s + 1 < length (data s))%nat
      /\ read_word s = inr (Some (Z.lor (nth (pos s) (data s) 0)
                                        (Z.shiftl (nth (pos s + 1) (data s) 0) 8)),
                            set_pos s (pos s + 2)%nat)).
Proof.
  unfold read_word. rewrite bind_run. cbn [get].
  destruct (length (data s) <=? pos s + 1)%nat eqn:E.
  - left. split; [apply Nat.leb_le; exact E | reflexivity].
  - right. split; [apply Nat.leb_gt; exact E | reflexivity].
Qed.

Lemma get_label_cases s a :
  (exists l, labels s !! a = Some l /\ get_label a s = inr (l, s))
  \/ (labels s !! a = None
      /\ get_label a s = inr (format_addr a,
                              set_labels s (<[a := format_addr a]> (labels s)))).
Proof.
  unfold get_label. rewrite bind_run. cbn [get].
  destruct (labels s !! a) as [l|] eqn:E.
  - left. exists l. split; reflexivity.
  - right. split; reflexivity.
Qed.

Section SizeAdvLemmas.

Lemma SA_ret t n : SizeAdv n (mret (Some t, n)).
Proof. intros s r s' H. injection H as <- <-. simpl. split; [lia | discriminate]. Qed.

Lemma SA_ret_none : SizeAdv 0 (@mret M _ result (None, 0%nat)).
Proof. intros s r s' H. injection H as <- <-. simpl. split; [lia | lia]. Qed.

Lemma SA_if k (b : bool) (m1 m2 : M result) : SizeAdv k m1 -> SizeAdv k m2 -> SizeAdv k (if b then m1 else m2).
Proof. destruct b; auto. Qed.

Lemma SA_read_byte k (f : option Z -> M result) :
  SizeAdv k (f None) -> (forall b, SizeAdv (S k) (f (Some b))) ->
  SizeAdv k (o ← read_byte; f o).
Proof.
  intros HN HS s r s' H. rewrite bind_run in H.
  destruct (read_byte_cases s) as [[_ E]|[_ E]]; rewrite E in H.
  - exact (HN _ _ _ H).
  - destruct (HS _ _ _ _ H) as [H1 H2]. simpl in H1. split; [lia|].
    intros _. apply H2. lia.
Qed.

Lemma SA_read_word k (f : option Z -> M result) :
  SizeAdv k (f None) -> (forall w, SizeAdv (S (S k)) (f (Some w))) ->
  SizeAdv k (o ← read_word; f o).
Proof.
  intros HN HS s r s' H. rewrite bind_run in H.
  destruct (read_word_cases s) as [[_ E]|[_ E]]; rewrite E in H.
  - exact (HN _ _ _ H).
  - destruct (HS _ _ _ _ H) as [H1 H2]. simpl in H1. split; [lia|].
    intros _. apply H2. lia.
Qed.

Lemma SA_need {A} k (o : option A) (f : A -> M result) :
  match o with Some a => SizeAdv k (f a) | None => True end ->
  SizeAdv k (x ← need o; f x).
Proof. destruct o as [a|]; intros Hf s r s' H; [exact (Hf _ _ _ H) | discriminate]. Qed.

Lemma SA_get_label k a (f : string -> M result) :
  (forall l, SizeAdv k (f l)) -> SizeAdv k (l ← get_label a; f l).
Proof.
  intros Hf s r s' H. rewrite bind_run in H.
  destruct (get_label_cases s a) as [[l [_ E]]|[_ E]]; rewrite E in H;
    exact (Hf _ _ _ _ H).
Qed.

Lemma SA_get k (f : Dis -> M result) :
  (forall x, SizeAdv k (f x)) -> SizeAdv k (x ← get; f x).
Proof. intros Hf s r s' H. exact (Hf s s r s' H). Qed.

End SizeAdvLemmas.

Ltac solve_sa :=
  repeat first
    [ progress cbv beta zeta iota
    | exact I
    | apply SA_ret
    | apply SA_ret_none
    | apply SA_if
    | apply SA_read_byte; [ | intro ]
    | apply SA_read_word; [ | intro ]
    | apply SA_need
    | apply SA_get_label; intro
    | apply SA_get; intro
    | progress unfold op_fixed, op_byte, op_word, op_rel, op_abs, op_db
    | match goal with
      | |- SizeAdv _ (match ?o with Some _ => _ | None => _ end) => destruct o
      end ].

Lemma main_instruction_size addr opcode : SizeAdv 1 (main_instruction addr opcode).
Proof. unfold main_instruction. solve_sa. Qed.

Lemma cb_prefix_size addr : SizeAdv 1 (disassemble_cb_prefix addr).
Proof. unfold disassemble_cb_prefix. solve_sa. Qed.

Lemma ed_prefix_size addr : SizeAdv 1 (disassemble_ed_prefix addr).
Proof. unfold disassemble_ed_prefix. solve_sa. Qed.

Lemma dd_prefix_size addr : SizeAdv 1 (disassemble_dd_prefix addr).
Proof. unfold disassemble_dd_prefix. solve_sa. Qed.

Lemma fd_prefix_size addr : SizeAdv 1 (disassemble_fd_prefix addr).
Proof. unfold disassemble_fd_prefix. solve_sa. Qed.

Lemma disassemble_instruction_size : SizeAdv 0 disassemble_instruction.
Proof.
  unfold disassemble_instruction. solve_sa;
    auto using main_instruction_size, cb_prefix_size, ed_prefix_size,
      dd_prefix_size, fd_prefix_size.
Qed.

Lemma disassemble_instruction_end s :
  (length (data s) <= pos s)%nat -> disassemble_instruction s = inr ((None, 0%nat), s).
Proof.
  intros H. unfold disassemble_instruction. rewrite bind_run. cbn [get].
  replace (length (data s) <=? pos s)%nat with true
    by (symmetry; apply Nat.leb_le; exact H). reflexivity.
Qed.

Lemma dispatch_size addr b :
  SizeAdv 1 (if Z.eqb b 0xCB then disassemble_cb_prefix addr
             else if Z.eqb b 0xED then disassemble_ed_prefix addr
             else if Z.eqb b 0xDD then disassemble_dd_prefix addr
             else if Z.eqb b 0xFD then disassemble_fd_prefix addr
             else main_instruction addr b).
Proof.
  destruct (Z.eqb b 0xCB); [apply cb_prefix_size|].
  destruct (Z.eqb b 0xED); [apply ed_prefix_size|].
  destruct (Z.eqb b 0xDD); [apply dd_prefix_size|].
  destruct (Z.eqb b 0xFD); [apply fd_prefix_size|].
  apply main_instruction_size.
Qed.

(** [disassemble_instruction] moves the cursor by exactly the size it
    returns; it returns no text exactly at the end of the data, and there it
    returns size 0 and leaves the object unchanged. *)
Theorem decode_step_size (s : Dis) (r : result) (s' : Dis) :
  disassemble_instruction s = inr (r, s') ->
  pos s' = (pos s + snd r)%nat
  /\ (fst r = None <-> (length (data s) <= pos s)%nat)
  /\ ((length (data s) <= pos s)%nat -> r = (None, 0%nat) /\ s' = s).
Proof.
  intros H. destruct (disassemble_instruction_size _ _ _ H) as [Hp _].
  destruct (Nat.le_gt_cases (length (data s)) (pos s)) as [Hend|Hlt].
  - rewrite (disassemble_instruction_end s Hend) in H. injection H as <- <-.
    simpl. repeat split; auto; lia.
  - destruct (nth_error (data s) (pos s)) as [b|] eqn:Hb;
      [|apply nth_error_None in Hb; lia].
    rewrite (disassemble_instruction_run s b Hb) in H. cbv zeta in H.
    destruct (dispatch_size _ b _ _ _ H) as [_ HS].
    repeat split; try lia.
    intros HN. exfalso. apply HS; [lia | exact HN].
Qed.

Lemma decode_step_size_witness :
  pos (set_pos (init [0x01; 0x34; 0x12] 0) 3) = Nat.add (pos (init [0x01; 0x34; 0x12] 0)) 3
  /\ (Some "LD BC,&1234"%string = None <-> (3 <= 0)%nat)
  /\ ((3 <= 0)%nat -> (Some "LD BC,&1234"%string, 3%nat) = (None, 0%nat)
                      /\ set_pos (init [0x01; 0x34; 0x12] 0) 3 = init [0x01; 0x34; 0x12] 0).
Proof.
  exact (decode_step_size (init [0x01; 0x34; 0x12] 0) (Some "LD BC,&1234"%string, 3%nat)
           (set_pos (init [0x01; 0x34; 0x12] 0) 3) ltac:(vm_compute; reflexivity)).
Defined.

Section SafeLemmas.

Lemma Safe_ret {A} k (a : A) : Safe k (mret a).
Proof. intros s _. exists a, s. reflexivity. Qed.

Lemma Safe_if {A} k (b : bool) (m1 m2 : M A) : Safe k m1 -> Safe k m2 -> Safe k (if b then m1 else m2).
Proof. destruct b; auto. Qed.

Lemma Safe_read_byte {A} k (f : option Z -> M A) :
  (forall b, Safe k (f (Some b))) -> Safe (S k) (o ← read_byte; f o).
Proof.
  intros Hf s Hs. rewrite bind_run, read_byte_run by lia.
  apply Hf. simpl. lia.
Qed.

Lemma Safe_read_word {A} k (f : option Z -> M A) :
  (forall w, Safe k (f (Some w))) -> Safe (S (S k)) (o ← read_word; f o).
Proof.
  intros Hf s Hs. rewrite bind_run.
  destruct (read_word_cases s) as [[H _]|[_ E]]; [lia|]. rewrite E.
  apply Hf. simpl. lia.
Qed.

Lemma Safe_need {A B} k (a : A) (f : A -> M B) : Safe k (f a) -> Safe k (x ← need (Some a); f x).
Proof. intros Hf s Hs. exact (Hf s Hs). Qed.

Lemma Safe_get_label {A} k a (f : string -> M A) :
  (forall l, Safe k (f l)) -> Safe k (l ← get_label a; f l).
Proof.
  intros Hf s Hs. rewrite bind_run.
  destruct (get_label_cases s a) as [[l [_ E]]|[_ E]]; rewrite E; apply Hf; exact Hs.
Qed.

End SafeLemmas.

Ltac solve_safe :=
  repeat first
    [ progress cbv beta zeta iota
    | apply Safe_ret
    | apply Safe_if
    | apply Safe_read_byte; intro
    | apply Safe_read_word; intro
    | apply Safe_need
    | apply Safe_get_label; intro
    | progress unfold op_fixed, op_byte, op_word, op_rel, op_abs, op_db ].

Lemma main_instruction_safe addr opcode : Safe 2 (main_instruction addr opcode).
Proof. unfold main_instruction. solve_safe. Qed.

Lemma prefix_safe addr b :
  Safe 3 (if Z.eqb b 0xCB then disassemble_cb_prefix addr
          else if Z.eqb b 0xED then disassemble_ed_prefix addr
          else if Z.eqb b 0xDD then disassemble_dd_prefix addr
          else if Z.eqb b 0xFD then disassemble_fd_prefix addr
          else main_instruction addr b).
Proof.
  unfold disassemble_cb_prefix, disassemble_ed_prefix, disassemble_dd_prefix,
    disassemble_fd_prefix.
  destruct (Z.eqb b 0xCB); [solve_safe|].
  destruct (Z.eqb b 0xED); [solve_safe|].
  destruct (Z.eqb b 0xDD); [solve_safe|].
  destruct (Z.eqb b 0xFD); [solve_safe|].
  intros s Hs. apply main_instruction_safe. lia.
Qed.

(** With four bytes left, one decoding step raises nothing. *)
Lemma disassemble_instruction_safe : Safe 4 disassemble_instruction.
Proof.
  intros s Hs.
  destruct (nth_error (data s) (pos s)) as [b|] eqn:Hb;
    [|apply nth_error_None in Hb; lia].
  rewrite (disassemble_instruction_run s b Hb). apply prefix_safe. simpl. lia.
Qed.

Lemma disassemble_instruction_some s r s' :
  (pos s < length (data s))%nat -> disassemble_instruction s = inr (r, s') -> fst r <> None.
Proof.
  intros Hlt H.
  destruct (nth_error (data s) (pos s)) as [b|] eqn:Hb;
    [|apply nth_error_None in Hb; lia].
  rewrite (disassemble_instruction_run s b Hb) in H. cbv zeta in H.
  destruct (dispatch_size _ b _ _ _ H) as [_ HS]. apply HS. lia.
Qed.

Lemma peek_byte_run k s :
  peek_byte k s = inr (if (length (data s) <=? pos s + k)%nat then None
                       else Some (nth (pos s + k) (data s) 0), s).
Proof.
  unfold peek_byte. rewrite bind_run. cbn [get].
  destruct (length (data s) <=? pos s + k)%nat; reflexivity.
Qed.

(** A run of the loop raises nothing when every decoding step it can
    reach starts either four bytes before the end or on a zero byte. *)
Lemma loop_no_raise fuel ml lc s :
  (forall p, (p < length (data s))%nat -> (length (data s) < p + 4)%nat ->
             nth_error (data s) p = Some 0) ->
  exists lines s', loop fuel ml lc s = inr (lines, s').
Proof.
  revert lc s. induction fuel as [|fuel IH]; intros lc s Hz.
  - do 2 eexists. reflexivity.
  - rewrite loop_S, bind_run. cbn [get].
    destruct (pos s <? length (data s))%nat eqn:Hlt; [|do 2 eexists; reflexivity].
    apply Nat.ltb_lt in Hlt. cbv zeta. rewrite bind_run.
    assert (Hd : exists r s1, disassemble_instruction s = inr (r, s1)).
    { destruct (Nat.le_gt_cases (pos s + 4) (length (data s))) as [H4|H4].
      - exact (disassemble_instruction_safe s H4).
      - rewrite (disassemble_instruction_run s 0 (Hz _ Hlt H4)).
        exists (Some "NOP"%string, 1%nat), (set_pos s (S (pos s))). reflexivity. }
    destruct Hd as [[[i|] n] [s1 Hd]]; rewrite Hd; [|do 2 eexists; reflexivity].
    pose proof (disassemble_instruction_evolves _ _ _ Hd) as [Hd1 _ _ _ _ _].
    cbv beta iota. rewrite !bind_run. cbn [get]. rewrite bind_run, peek_byte_run.
    cbn [mret M_ret].
    destruct (stop_now ml (S lc)); [do 2 eexists; reflexivity|].
    rewrite bind_run.
    destruct (IH (S lc) s1) as [rest [s2 E]]; [rewrite Hd1; exact Hz|].
    rewrite E. do 2 eexists. reflexivity.
Qed.

(** Positions of the cursor and addresses of the lines of a run. *)
Lemma loop_tiles fuel ml lc s lines s' :
  loop fuel ml lc s = inr (lines, s') ->
  pos s' = (pos s + list_sum (map l_size lines))%nat
  /\ Forall (fun ln => (0 < l_size ln)%nat) lines
  /\ (forall i ln, lines !! i = Some ln ->
        l_addr ln = start_addr s + Z.of_nat (pos s + list_sum (map l_size (take i lines)))).
Proof.
  revert lc s lines s'. induction fuel as [|fuel IH]; intros lc s lines s' H.
  - injection H as <- <-. simpl. split; [lia|]. split; [constructor|].
    intros i ln Hi. rewrite lookup_nil in Hi. discriminate.
  - rewrite loop_S, bind_run in H. cbn [get] in H.
    destruct (pos s <? length (data s))%nat eqn:Hlt;
      [|injection H as <- <-; simpl; split; [lia|]; split; [constructor|];
        intros i ln Hi; rewrite lookup_nil in Hi; discriminate].
    cbv zeta in H. rewrite bind_run in H.
    destruct (disassemble_instruction s) as [e|[[[i|] n] s1]] eqn:Hd;
      [discriminate| |exfalso; apply Nat.ltb_lt in Hlt;
                       exact (disassemble_instruction_some _ _ _ Hlt Hd eq_refl)].
    destruct (disassemble_instruction_size _ _ _ Hd) as [Hn _]. simpl in Hn.
    pose proof (disassemble_instruction_progress _ _ _ _ Hd) as Hp.
    pose proof (disassemble_instruction_evolves _ _ _ Hd) as [_ Hst _ _ _ _].
    cbv beta iota in H. rewrite !bind_run in H. cbn [get] in H.
    rewrite bind_run, peek_byte_run in H. cbn [mret M_ret] in H.
    set (ln := mkLine _ _ i n) in H.
    assert (Hln : l_addr ln = start_addr s + Z.of_nat (pos s)) by reflexivity.
    destruct (stop_now ml (S lc)).
    + injection H as <- <-. simpl. split; [lia|]. split; [constructor; [simpl; lia|constructor]|].
      intros [|j] x Hj; [injection Hj as <-; rewrite Hln; simpl; f_equal; lia|].
      simpl in Hj. rewrite lookup_nil in Hj. discriminate.
    + rewrite bind_run in H.
      destruct (loop fuel ml (S lc) s1) as [e|[rest s3]] eqn:Hl; [discriminate|].
      injection H as <- <-.
      destruct (IH _ _ _ _ Hl) as [H1 [H2 H3]].
      split; [simpl; lia|]. split; [constructor; [simpl; lia|exact H2]|].
      intros [|j] x Hj.
      * injection Hj as <-. rewrite Hln. simpl. f_equal. lia.
      * simpl in Hj. rewrite (H3 _ _ Hj), Hst. simpl. f_equal. lia.
Qed.

(** Without [max_lines], the loop runs to the end of the image. *)
Lemma loop_reaches_end fuel lc s lines s' :
  loop fuel None lc s = inr (lines, s') ->
  (pos s <= length (data s))%nat -> (length (data s) - pos s < fuel)%nat ->
  pos s' = length (data s).
Proof.
  revert lc s lines s'. induction fuel as [|fuel IH]; intros lc s lines s' H Hb Hf; [lia|].
  rewrite loop_S, bind_run in H. cbn [get] in H.
  destruct (pos s <? length (data s))%nat eqn:Hlt;
    [|injection H as <- <-; apply Nat.ltb_ge in Hlt; lia].
  apply Nat.ltb_lt in Hlt.
  cbv zeta in H. rewrite bind_run in H.
  destruct (disassemble_instruction s) as [e|[[[i|] n] s1]] eqn:Hd; [discriminate| |].
  2:{ exfalso. exact (disassemble_instruction_some _ _ _ Hlt Hd eq_refl). }
  pose proof (disassemble_instruction_progress _ _ _ _ Hd) as Hp.
  pose proof (disassemble_instruction_evolves _ _ _ Hd) as [Hd1 _ _ Hb1 _ _].
  cbv beta iota in H. rewrite !bind_run in H. cbn [get] in H.
  rewrite bind_run, peek_byte_run in H. cbn [mret M_ret stop_now] in H.
  rewrite bind_run in H.
  destruct (loop fuel None (S lc) s1) as [e|[rest s3]] eqn:Hl; [discriminate|].
  injection H as _ <-. rewrite <- Hd1. apply (IH _ _ _ _ Hl); rewrite Hd1; [auto|lia].
Qed.

Lemma loop_some_zero fuel lc : loop fuel (Some 0%nat) lc = loop fuel None lc.
Proof.
  revert lc. induction fuel as [|fuel IH]; intros lc; [reflexivity|].
  rewrite !loop_S. cbn [stop_now negb Nat.eqb andb]. rewrite IH. reflexivity.
Qed.

Lemma loop_max_lines fuel m lc s lines s' :
  loop fuel None lc s = inr (lines, s') -> (lc < m)%nat ->
  exists s'', loop fuel (Some m) lc s = inr (firstn (m - lc) lines, s'').
Proof.
  revert lc s lines s'. induction fuel as [|fuel IH]; intros lc s lines s' H Hm.
  - injection H as <- <-. exists s. rewrite firstn_nil. reflexivity.
  - rewrite loop_S, bind_run in H. rewrite loop_S, bind_run. cbn [get] in *.
    destruct (pos s <? length (data s))%nat;
      [|injection H as <- <-; exists s; rewrite firstn_nil; reflexivity].
    cbv zeta in *. rewrite bind_run in *.
    destruct (disassemble_instruction s) as [e|[[[i|] n] s1]];
      [discriminate| |injection H as <- <-; exists s1; rewrite firstn_nil; reflexivity].
    cbv beta iota in *. rewrite !bind_run in *. cbn [get] in *.
    rewrite !bind_run, !peek_byte_run in *.
    cbn [mret M_ret stop_now] in *. rewrite bind_run in H.
    destruct (loop fuel None (S lc) s1) as [e|[rest s3]] eqn:Hl; [discriminate|].
    injection H as <- _.
    destruct (Nat.eqb m 0) eqn:Hm0; [apply Nat.eqb_eq in Hm0; lia|].
    cbn [negb andb].
    destruct (m <=? S lc)%nat eqn:Hle.
    + apply Nat.leb_le in Hle. exists s1.
      replace (m - lc)%nat with 1%nat by lia. reflexivity.
    + apply Nat.leb_gt in Hle. rewrite bind_run.
      destruct (IH _ _ _ _ Hl ltac:(lia)) as [s4 E]. rewrite E.
      exists s4. replace (m - lc)%nat with (S (m - S lc)) by lia. reflexivity.
Qed.

Lemma loop_max_lines_bound fuel m lc s lines s' :
  loop fuel (Some m) lc s = inr (lines, s') -> (0 < m)%nat -> (lc < m)%nat ->
  (length lines <= m - lc)%nat.
Proof.
  revert lc s lines s'. induction fuel as [|fuel IH]; intros lc s lines s' H Hm Hlc.
  - injection H as <- <-. simpl. lia.
  - rewrite loop_S, bind_run in H. cbn [get] in H.
    destruct (pos s <? length (data s))%nat; [|injection H as <- <-; simpl; lia].
    cbv zeta in H. rewrite bind_run in H.
    destruct (disassemble_instruction s) as [e|[[[i|] n] s1]];
      [discriminate| |injection H as <- <-; simpl; lia].
    cbv beta iota in H. rewrite !bind_run in H. cbn [get] in H.
    rewrite bind_run, peek_byte_run in H. cbn [mret M_ret stop_now] in H.
    destruct (Nat.eqb m 0) eqn:Hm0; [apply Nat.eqb_eq in Hm0; lia|].
    cbn [negb andb] in H.
    destruct (m <=? S lc)%nat eqn:Hle; [injection H as <- <-; simpl; lia|].
    apply Nat.leb_gt in Hle. rewrite bind_run in H.
    destruct (loop fuel (Some m) (S lc) s1) as [e|[rest s3]] eqn:Hl; [discriminate|].
    injection H as <- _. specialize (IH _ _ _ _ Hl Hm Hle). simpl. lia.
Qed.

(** The lines of a run of [disassemble_all] without [max_lines] tile the
    image: the sizes are positive, add up to its length, and each line's
    address is [start] plus the sizes of the lines before it. *)
Theorem listing_tiles_image (image : list Z) (start : Z) (lines : list line) (s : Dis) :
  decode image start None = inr (lines, s) ->
  list_sum (map l_size lines) = length image
  /\ pos s = length image
  /\ Forall (fun ln => (0 < l_size ln)%nat) lines
  /\ (forall i ln, lines !! i = Some ln ->
        l_addr ln = start + Z.of_nat (list_sum (map l_size (take i lines)))).
Proof.
  intros H. unfold decode in H.
  destruct (loop_tiles _ _ _ _ _ _ H) as [H1 [H2 H3]].
  pose proof (loop_reaches_end _ _ _ _ _ H ltac:(simpl; lia) ltac:(simpl; lia)) as He.
  simpl in H1, H3, He. split; [lia|]. split; [exact He|]. split; [exact H2|].
  intros i ln Hi. exact (H3 i ln Hi).
Qed.

Lemma listing_tiles_image_witness :
  list_sum (map l_size [mkLine 0 "" "NOP" 1; mkLine 1 "" "LD BC,&1234" 3]) = length [0x00; 0x01; 0x34; 0x12]
  /\ pos (mkDis [0x00; 0x01; 0x34; 0x12] 4 0 ∅) = length [0x00; 0x01; 0x34; 0x12]
  /\ Forall (fun ln => (0 < l_size ln)%nat) [mkLine 0 "" "NOP" 1; mkLine 1 "" "LD BC,&1234" 3]
  /\ (forall i ln, [mkLine 0 "" "NOP" 1; mkLine 1 "" "LD BC,&1234" 3] !! i = Some ln ->
        l_addr ln = 0 + Z.of_nat (list_sum (map l_size (take i [mkLine 0 "" "NOP" 1; mkLine 1 "" "LD BC,&1234" 3])))).
Proof.
  apply (listing_tiles_image [0x00; 0x01; 0x34; 0x12] 0). vm_compute. reflexivity.
Defined.

(** [max_lines = 0] is the same as no limit; a positive [max_lines = m]
    gives at most [m] lines, and when the unlimited run succeeds the
    limited run gives its first [m] lines. *)
Theorem max_lines_truncates (image : list Z) (start : Z) :
  decode image start (Some 0%nat) = decode image start None
  /\ (forall (m : nat) (lines : list line) (s : Dis), (0 < m)%nat ->
        decode image start (Some m) = inr (lines, s) -> (length lines <= m)%nat)
  /\ (forall (m : nat) (lines : list line) (s : Dis), (0 < m)%nat ->
        decode image start None = inr (lines, s) ->
        exists s', decode image start (Some m) = inr (firstn m lines, s')).
Proof.
  unfold decode. split; [apply (f_equal (fun f => f _)); apply loop_some_zero|].
  split.
  - intros m lines s Hm H. pose proof (loop_max_lines_bound _ _ _ _ _ _ H Hm Hm). lia.
  - intros m lines s Hm H. destruct (loop_max_lines _ m _ _ _ _ H Hm) as [s' E].
    exists s'. rewrite Nat.sub_0_r in E. exact E.
Qed.

Lemma max_lines_truncates_witness :
  exists s', decode [0x00; 0x00; 0x00] 0 (Some 2%nat)
             = inr (firstn 2 [mkLine 0 "" "NOP" 1; mkLine 1 "" "NOP" 1; mkLine 2 "" "NOP" 1], s').
Proof.
  apply (proj2 (proj2 (max_lines_truncates [0x00; 0x00; 0x00] 0)) 2%nat
           [mkLine 0 "" "NOP" 1; mkLine 1 "" "NOP" 1; mkLine 2 "" "NOP" 1]
           (mkDis [0x00; 0x00; 0x00] 3 0 ∅)); [lia | vm_compute; reflexivity].
Defined.

(** With at least four bytes left, [disassemble_instruction] never raises;
    hence an image that ends in three zero bytes is disassembled without
    an exception, whatever its contents. *)
Theorem nop_padding_never_raises :
  (forall s : Dis, (pos s + 4 <= length (data s))%nat ->
     exists r s', disassemble_instruction s = inr (r, s'))
  /\ (forall (pre : list Z) (start : Z) (ml : option nat),
        exists lines s, decode (pre ++ [0; 0; 0]) start ml = inr (lines, s)).
Proof.
  split; [exact disassemble_instruction_safe|].
  intros pre start ml. unfold decode. apply loop_no_raise.
  simpl. rewrite length_app. simpl. intros p Hp H4.
  rewrite nth_error_app2 by lia.
  destruct (p - length pre)%nat as [|[|[|k]]] eqn:E; [reflexivity..|lia].
Qed.

Lemma nop_padding_never_raises_witness :
  (exists r s', disassemble_instruction (init [0xDD; 0x36; 0x05; 0x10] 0) = inr (r, s'))
  /\ (exists lines s, decode ([0x06] ++ [0; 0; 0]) 0 None = inr (lines, s)).
Proof.
  split.
  - apply (proj1 nop_padding_never_raises). simpl. lia.
  - apply (proj2 nop_padding_never_raises).
Defined.

Lemma same_labels_refl s : same_labels s s.
Proof. reflexivity. Qed.

Lemma same_labels_trans s1 s2 s3 : same_labels s1 s2 -> same_labels s2 s3 -> same_labels s1 s3.
Proof. unfold same_labels. congruence. Qed.

Lemma grow1_refl s : grow1 s s.
Proof. split; [reflexivity | lia]. Qed.

Lemma grow1_of_same {A} (m : M A) : Pres same_labels m -> Pres grow1 m.
Proof.
  intros Hm s a s' H. unfold grow1. rewrite (Hm _ _ _ H). split; [reflexivity | lia].
Qed.

Lemma grow1_bind_same {A B} (m : M A) (k : A -> M B) :
  Pres same_labels m -> (forall a, Pres grow1 (k a)) -> Pres grow1 (x ← m; k x).
Proof.
  intros Hm Hk s b s' H. rewrite bind_run in H.
  destruct (m s) as [e|[a s1]] eqn:E; [discriminate|].
  specialize (Hm _ _ _ E). unfold same_labels in Hm.
  destruct (Hk _ _ _ _ H) as [H1 H2]. unfold grow1. rewrite <- Hm. auto.
Qed.

Lemma grow1_bind_then_same {A B} (m : M A) (k : A -> M B) :
  Pres grow1 m -> (forall a, Pres same_labels (k a)) -> Pres grow1 (x ← m; k x).
Proof.
  intros Hm Hk s b s' H. rewrite bind_run in H.
  destruct (m s) as [e|[a s1]] eqn:E; [discriminate|].
  specialize (Hk _ _ _ _ H). unfold same_labels in Hk.
  destruct (Hm _ _ _ E) as [H1 H2]. unfold grow1. rewrite Hk. auto.
Qed.

Lemma read_byte_same : Pres same_labels read_byte.
Proof. intros s a s' H. destruct (read_byte_cases s) as [[_ E]|[_ E]]; rewrite E in H;
  injection H as _ <-; reflexivity. Qed.

Lemma read_word_same : Pres same_labels read_word.
Proof. intros s a s' H. destruct (read_word_cases s) as [[_ E]|[_ E]]; rewrite E in H;
  injection H as _ <-; reflexivity. Qed.

Lemma peek_byte_same k : Pres same_labels (peek_byte k).
Proof. intros s a s' H. rewrite peek_byte_run in H. injection H as _ <-. reflexivity. Qed.

Lemma get_label_grow1 a : Pres grow1 (get_label a).
Proof.
  intros s l s' H. destruct (get_label_cases s a) as [[l' [_ E]]|[Hn E]]; rewrite E in H;
    injection H as _ <-; [apply grow1_refl|].
  split; simpl.
  - by apply insert_subseteq.
  - rewrite map_size_insert_None by exact Hn. lia.
Qed.

Ltac solve_same :=
  repeat first
    [ progress cbv beta zeta
    | apply (Pres_ret same_labels same_labels_refl)
    | apply (Pres_get same_labels same_labels_refl)
    | apply (Pres_need same_labels same_labels_refl)
    | apply (Pres_op_fixed same_labels same_labels_refl)
    | apply (Pres_op_db same_labels same_labels_refl)
    | apply read_byte_same
    | apply read_word_same
    | apply (Pres_bind same_labels same_labels_trans); [ | intro ]
    | apply (Pres_if same_labels)
    | progress unfold op_byte, op_word
    | match goal with
      | |- Pres _ (match ?o with Some _ => _ | None => _ end) => destruct o
      end ].

Ltac solve_grow1 :=
  repeat first
    [ progress cbv beta zeta
    | apply (Pres_op_fixed grow1 grow1_refl)
    | apply (Pres_op_db grow1 grow1_refl)
    | apply (Pres_ret grow1 grow1_refl)
    | apply get_label_grow1
    | apply grow1_bind_same; [ solve [solve_same] | intro ]
    | apply grow1_bind_then_same; [ apply get_label_grow1 | intro; solve [solve_same] ]
    | apply (Pres_if grow1)
    | apply grow1_of_same; solve [solve_same]
    | progress unfold op_rel, op_abs
    | match goal with
      | |- Pres _ (match ?o with Some _ => _ | None => _ end) => destruct o
      end ].

Lemma main_instruction_grow1 addr opcode : Pres grow1 (main_instruction addr opcode).
Proof. unfold main_instruction. solve_grow1. Qed.

Lemma prefixes_same addr :
  Pres same_labels (disassemble_cb_prefix addr) /\ Pres same_labels (disassemble_ed_prefix addr)
  /\ Pres same_labels (disassemble_dd_prefix addr) /\ Pres same_labels (disassemble_fd_prefix addr).
Proof.
  unfold disassemble_cb_prefix, disassemble_ed_prefix, disassemble_dd_prefix,
    disassemble_fd_prefix.
  repeat split; solve_same.
Qed.

Lemma disassemble_instruction_grow1 : Pres grow1 disassemble_instruction.
Proof.
  intros s r s' H.
  destruct (Nat.le_gt_cases (length (data s)) (pos s)) as [Hend|Hlt].
  - rewrite (disassemble_instruction_end s Hend) in H. injection H as _ <-.
    apply grow1_refl.
  - destruct (nth_error (data s) (pos s)) as [b|] eqn:Hb;
      [|apply nth_error_None in Hb; lia].
    rewrite (disassemble_instruction_run s b Hb) in H. cbv zeta in H.
    set (addr := start_addr s + Z.of_nat (pos s)) in H.
    destruct (prefixes_same addr) as [Hcb [Hed [Hdd Hfd]]].
    change (labels s) with (labels (set_pos s (S (pos s)))).
    destruct (Z.eqb b 0xCB); [exact (grow1_of_same _ Hcb _ _ _ H)|].
    destruct (Z.eqb b 0xED); [exact (grow1_of_same _ Hed _ _ _ H)|].
    destruct (Z.eqb b 0xDD); [exact (grow1_of_same _ Hdd _ _ _ H)|].
    destruct (Z.eqb b 0xFD); [exact (grow1_of_same _ Hfd _ _ _ H)|].
    exact (main_instruction_grow1 _ _ _ _ _ H).
Qed.

Lemma loop_label_count fuel ml lc s lines s' :
  loop fuel ml lc s = inr (lines, s') ->
  (size (labels s') <= size (labels s) + length lines)%nat.
Proof.
  revert lc s lines s'. induction fuel as [|fuel IH]; intros lc s lines s' H.
  - injection H as <- <-. simpl. lia.
  - rewrite loop_S, bind_run in H. cbn [get] in H.
    destruct (pos s <? length (data s))%nat eqn:Hlt; [|injection H as <- <-; simpl; lia].
    apply Nat.ltb_lt in Hlt. cbv zeta in H. rewrite bind_run in H.
    destruct (disassemble_instruction s) as [e|[[[i|] n] s1]] eqn:Hd;
      [discriminate| |exfalso; exact (disassemble_instruction_some _ _ _ Hlt Hd eq_refl)].
    destruct (disassemble_instruction_grow1 _ _ _ Hd) as [_ Hg].
    cbv beta iota in H. rewrite !bind_run in H. cbn [get] in H.
    rewrite bind_run, peek_byte_run in H. cbn [mret M_ret] in H.
    destruct (stop_now ml (S lc)); [injection H as <- <-; simpl; lia|].
    rewrite bind_run in H.
    destruct (loop fuel ml (S lc) s1) as [e|[rest s3]] eqn:Hl; [discriminate|].
    injection H as <- <-. specialize (IH _ _ _ _ Hl). simpl. lia.
Qed.

(** Each call of [disassemble_instruction] keeps the labels it had and adds
    at most one; so [disassemble_all] ends with at most one label per line. *)
Theorem labels_at_most_one_per_line :
  (forall (s : Dis) (r : result) (s' : Dis), disassemble_instruction s = inr (r, s') ->
     labels s ⊆ labels s' /\ (size (labels s') <= S (size (labels s)))%nat)
  /\ (forall (image : list Z) (start : Z) (ml : option nat) (lines : list line) (s : Dis),
        decode image start ml = inr (lines, s) -> (size (labels s) <= length lines)%nat).
Proof.
  split; [exact disassemble_instruction_grow1|].
  intros image start ml lines s H. unfold decode in H.
  pose proof (loop_label_count _ _ _ _ _ _ H) as Hc. simpl in Hc.
  rewrite map_size_empty in Hc. lia.
Qed.

Lemma labels_at_most_one_per_line_witness :
  Nat.le (size (labels (mkDis [0x18; 0xFE; 0xC3; 0x00; 0x40] 5 0x4000
                          {[0x4000 := "L4000"%string]}))) 2.
Proof.
  apply (proj2 labels_at_most_one_per_line [0x18; 0xFE; 0xC3; 0x00; 0x40] 0x4000 None
           [mkLine 0x4000 ("L4000:" ++ newline)%string "JR L4000" 2;
            mkLine 0x4002 "" "JP L4000" 3]).
  vm_compute. reflexivity.
Defined.

Lemma new_in_refl P s : new_in P s s.
Proof. split; [reflexivity|]. intros _ a l H1 H2. congruence. Qed.

Lemma new_in_trans P s1 s2 s3 : new_in P s1 s2 -> new_in P s2 s3 -> new_in P s1 s3.
Proof.
  intros [D1 N1] [D2 N2]. split; [congruence|]. intros Hb a l H3 H1.
  destruct (labels s2 !! a) as [l2|] eqn:E2.
  - exact (N1 Hb a l2 E2 H1).
  - rewrite D1 in N2. exact (N2 Hb a l H3 E2).
Qed.

Lemma new_in_of_same P {A} (m : M A) :
  Pres evolves m -> Pres same_labels m -> Pres (new_in P) m.
Proof.
  intros He Hs s a s' H. split; [exact (ev_data _ _ (He _ _ _ H))|].
  intros _ k l H1 H2. rewrite (Hs _ _ _ H) in H1. congruence.
Qed.

Lemma get_label_new_in P a : P a -> Pres (new_in P) (get_label a).
Proof.
  intros Ha s l s' H.
  destruct (get_label_cases s a) as [[l' [_ E]]|[Hn E]]; rewrite E in H;
    injection H as _ <-; [apply new_in_refl|].
  split; [reflexivity|]. intros _ k lk H1 H2. simpl in H1.
  destruct (Z.eq_dec k a) as [->|Hne]; [exact Ha|].
  rewrite lookup_insert_ne in H1 by congruence. congruence.
Qed.

Lemma nth_byte l p : Forall is_byte l -> is_byte (nth p l 0).
Proof.
  intros Hl. revert p. induction Hl as [|x l Hx Hl IH]; intros [|p]; simpl;
    try (unfold is_byte; lia); auto.
Qed.

Lemma lor_bytes lo hi : is_byte lo -> is_byte hi -> Z.lor lo (Z.shiftl hi 8) = lo + 256 * hi.
Proof.
  unfold is_byte. intros Hlo Hhi.
  rewrite <- Z.lxor_lor, <- Z.add_nocarry_lxor.
  - rewrite Z.shiftl_mul_pow2 by lia. lia.
  - apply Z.bits_inj'. intros n Hn. rewrite Z.land_spec, Z.bits_0.
    destruct (Z.lt_ge_cases n 8) as [H8|H8].
    + rewrite Z.shiftl_spec_low by lia. apply andb_false_r.
    + destruct (Z.eq_dec lo 0) as [->|Hz]; [rewrite Z.bits_0; reflexivity|].
      rewrite Z.bits_above_log2; [reflexivity | lia |].
      assert (Z.log2 lo < 8) by (apply Z.log2_lt_pow2; lia). lia.
  - apply Z.bits_inj'. intros n Hn. rewrite Z.land_spec, Z.bits_0.
    destruct (Z.lt_ge_cases n 8) as [H8|H8].
    + rewrite Z.shiftl_spec_low by lia. apply andb_false_r.
    + destruct (Z.eq_dec lo 0) as [->|Hz]; [rewrite Z.bits_0; reflexivity|].
      rewrite Z.bits_above_log2; [reflexivity | lia |].
      assert (Z.log2 lo < 8) by (apply Z.log2_lt_pow2; lia). lia.
Qed.

Lemma op_rel_new_in mn addr : Pres (new_in (branch_target addr)) (op_rel mn addr).
Proof.
  intros s r s' H. unfold op_rel in H. rewrite bind_run in H.
  destruct (read_byte_cases s) as [[_ E]|[_ E]]; rewrite E in H; [discriminate|].
  rewrite bind_run in H. cbn [need mret M_ret] in H. rewrite bind_run in H.
  set (s1 := set_pos s (S (pos s))) in H.
  set (o := nth (pos s) (data s) 0) in H.
  destruct (get_label _ s1) as [e|[l s2]] eqn:E2; [discriminate|].
  injection H as _ <-.
  assert (H1 : new_in (branch_target addr) s s1) by (split; [reflexivity|]; intros _ k lk A B; simpl in A; congruence).
  eapply new_in_trans; [exact H1|]. split; [exact (ev_data _ _ (get_label_evolves _ _ _ _ E2))|].
  intros Hb. simpl in Hb. pose proof (nth_byte _ (pos s) Hb) as Ho. fold o in Ho.
  unfold is_byte in Ho.
  assert (Ht : branch_target addr (addr + 2 + (if 127 <? o then o - 256 else o))).
  { right. destruct (127 <? o) eqn:Ec; [apply Z.ltb_lt in Ec | apply Z.ltb_ge in Ec]; lia. }
  apply (proj2 (get_label_new_in (branch_target addr) _ Ht _ _ _ E2)).
  exact Hb.
Qed.

Lemma op_abs_new_in mn addr : Pres (new_in (branch_target addr)) (op_abs mn).
Proof.
  intros s r s' H. unfold op_abs in H. rewrite bind_run in H.
  destruct (read_word_cases s) as [[_ E]|[_ E]]; rewrite E in H; [discriminate|].
  rewrite bind_run in H. cbn [need mret M_ret] in H. rewrite bind_run in H.
  set (s1 := set_pos s (pos s + 2)%nat) in H.
  destruct (get_label _ s1) as [e|[l s2]] eqn:E2; [discriminate|].
  injection H as _ <-.
  assert (H1 : new_in (branch_target addr) s s1) by (split; [reflexivity|]; intros _ k lk A B; simpl in A; congruence).
  eapply new_in_trans; [exact H1|]. split; [exact (ev_data _ _ (get_label_evolves _ _ _ _ E2))|].
  intros Hb. simpl in Hb.
  pose proof (nth_byte _ (pos s) Hb) as Hlo. pose proof (nth_byte _ (pos s + 1) Hb) as Hhi.
  assert (Ht : branch_target addr (Z.lor (nth (pos s) (data s) 0)
                                          (Z.shiftl (nth (pos s + 1) (data s) 0) 8))).
  { left. rewrite lor_bytes by assumption. unfold is_byte in *. lia. }
  apply (proj2 (get_label_new_in (branch_target addr) _ Ht _ _ _ E2)).
  exact Hb.
Qed.

Ltac solve_new_in :=
  repeat first
    [ progress cbv beta zeta
    | apply Pres_op_fixed; apply new_in_refl
    | apply Pres_op_db; apply new_in_refl
    | apply op_rel_new_in
    | apply op_abs_new_in
    | apply Pres_if
    | apply new_in_of_same; [apply op_byte_evolves | unfold op_byte; solve [solve_same]]
    | apply new_in_of_same; [apply op_word_evolves | unfold op_word; solve [solve_same]] ].

Lemma main_instruction_new_in addr opcode :
  Pres (new_in (branch_target addr)) (main_instruction addr opcode).
Proof. unfold main_instruction. solve_new_in. Qed.

Lemma disassemble_instruction_targets s r s' :
  disassemble_instruction s = inr (r, s') -> Forall is_byte (data s) ->
  forall a l, labels s' !! a = Some l -> labels s !! a = None ->
  branch_target (start_addr s + Z.of_nat (pos s)) a.
Proof.
  intros H Hb.
  destruct (Nat.le_gt_cases (length (data s)) (pos s)) as [Hend|Hlt].
  - rewrite (disassemble_instruction_end s Hend) in H. injection H as _ <-. congruence.
  - destruct (nth_error (data s) (pos s)) as [b|] eqn:Hbe;
      [|apply nth_error_None in Hbe; lia].
    rewrite (disassemble_instruction_run s b Hbe) in H. cbv zeta in H.
    set (addr := start_addr s + Z.of_nat (pos s)) in *.
    set (s1 := set_pos s (S (pos s))) in H.
    assert (Hn : new_in (branch_target addr) s1 s').
    { destruct (prefixes_same addr) as [Hcb [Hed [Hdd Hfd]]].
      destruct (Z.eqb b 0xCB);
        [exact (new_in_of_same _ _ (cb_prefix_evolves addr) Hcb _ _ _ H)|].
      destruct (Z.eqb b 0xED);
        [exact (new_in_of_same _ _ (ed_prefix_evolves addr) Hed _ _ _ H)|].
      destruct (Z.eqb b 0xDD);
        [exact (new_in_of_same _ _ (dd_prefix_evolves addr) Hdd _ _ _ H)|].
      destruct (Z.eqb b 0xFD);
        [exact (new_in_of_same _ _ (fd_prefix_evolves addr) Hfd _ _ _ H)|].
      exact (main_instruction_new_in _ _ _ _ _ H). }
    destruct Hn as [_ Hn]. exact (Hn Hb).
Qed.

Lemma loop_targets fuel ml lc s lines s' :
  loop fuel ml lc s = inr (lines, s') -> Forall is_byte (data s) ->
  forall a l, labels s' !! a = Some l -> labels s !! a = None ->
  (0 <= a <= 0xFFFF) \/ exists ln, In ln lines /\ l_addr ln - 126 <= a <= l_addr ln + 129.
Proof.
  revert lc s lines s'. induction fuel as [|fuel IH]; intros lc s lines s' H Hb a l Ha Hn.
  - injection H as <- <-. congruence.
  - rewrite loop_S, bind_run in H. cbn [get] in H.
    destruct (pos s <? length (data s))%nat eqn:Hlt; [|injection H as <- <-; congruence].
    apply Nat.ltb_lt in Hlt. cbv zeta in H. rewrite bind_run in H.
    destruct (disassemble_instruction s) as [e|[[[i|] n] s1]] eqn:Hd;
      [discriminate| |exfalso; exact (disassemble_instruction_some _ _ _ Hlt Hd eq_refl)].
    pose proof (disassemble_instruction_targets _ _ _ Hd Hb) as Hstep.
    pose proof (disassemble_instruction_evolves _ _ _ Hd) as [Hd1 _ _ _ _ _].
    cbv beta iota in H. rewrite !bind_run in H. cbn [get] in H.
    rewrite bind_run, peek_byte_run in H. cbn [mret M_ret] in H.
    set (ln := mkLine _ _ i n) in H.
    assert (Hfirst : forall l1, labels s1 !! a = Some l1 ->
              (0 <= a <= 0xFFFF) \/ l_addr ln - 126 <= a <= l_addr ln + 129).
    { intros l1 H1. destruct (Hstep a l1 H1 Hn) as [X|X]; [left; exact X | right; exact X]. }
    destruct (stop_now ml (S lc)).
    + injection H as <- <-.
      destruct (Hfirst l Ha) as [X|X]; [left; exact X|]. right. exists ln. split; [left; reflexivity | exact X].
    + rewrite bind_run in H.
      destruct (loop fuel ml (S lc) s1) as [e|[rest s3]] eqn:Hl; [discriminate|].
      injection H as <- <-.
      destruct (labels s1 !! a) as [l1|] eqn:E1.
      * destruct (Hfirst l1 eq_refl) as [X|X]; [left; exact X|].
        right. exists ln. split; [left; reflexivity | exact X].
      * rewrite <- Hd1 in Hb.
        destruct (IH _ _ _ _ Hl Hb a l Ha E1) as [X|[ln' [Hin X]]]; [left; exact X|].
        right. exists ln'. split; [right; exact Hin | exact X].
Qed.

Lemma size_nat_bound p : Z.pos p < 2 ^ Z.of_nat (Pos.size_nat p).
Proof.
  induction p as [p IH|p IH|]; cbn [Pos.size_nat]; try (rewrite Nat2Z.inj_succ, Z.pow_succ_r by lia); lia.
Qed.

Lemma size_nat_pos p : (1 <= Pos.size_nat p)%nat.
Proof. destruct p; simpl; lia. Qed.

Lemma digits_step n f acc :
  16 <= n -> digits_aux 16 (S f) n acc = digits_aux 16 f (n / 16) (String (hex_digit (n mod 16)) acc).
Proof. intros H. cbn [digits_aux]. rewrite (proj2 (Z.ltb_ge n 16) H). reflexivity. Qed.

Lemma digits_last n f acc :
  0 <= n < 16 -> digits_aux 16 (S f) n acc = String (hex_digit n) acc.
Proof.
  intros H. cbn [digits_aux]. rewrite (proj2 (Z.ltb_lt n 16) (proj2 H)).
  rewrite Z.mod_small by lia. reflexivity.
Qed.

Ltac hexeq :=
  repeat apply (f_equal2 String);
  first
    [ reflexivity
    | match goal with
      | |- hex_digit ?x = hex_digit ?y =>
          replace y with x by (Z.div_mod_to_equations; lia); reflexivity
      | |- _ = hex_digit ?y => replace y with 0 by (Z.div_mod_to_equations; lia); reflexivity
      end ].

Lemma format_addr_four_digits a : 0 <= a <= 0xFFFF -> format_addr a = four_digit_name a.
Proof.
  intros Ha. unfold format_addr, fmt04, py_hex.
  rewrite (proj2 (Z.ltb_ge a 0)) by lia.
  unfold hex_str, radix_str.
  assert (Hf : a < 2 ^ Z.of_nat (Pos.size_nat (Z.to_pos a))).
  { destruct (Z.eq_dec a 0) as [->|Hz]; [simpl; lia|].
    pose proof (size_nat_bound (Z.to_pos a)) as B. rewrite Z2Pos.id in B by lia. exact B. }
  pose proof (size_nat_pos (Z.to_pos a)) as Hf1.
  remember (Pos.size_nat (Z.to_pos a)) as F eqn:EF. clear EF.
  assert (Hbits : forall k : nat, 2 ^ Z.of_nat k <= a -> (k < F)%nat).
  { intros k Hk. destruct (Nat.lt_ge_cases k F) as [|Hle]; [assumption|].
    assert (2 ^ Z.of_nat F <= 2 ^ Z.of_nat k) by (apply Z.pow_le_mono_r; lia). lia. }
  unfold four_digit_name. rewrite !Z.shiftr_div_pow2 by lia.
  change (2 ^ 12) with 4096. change (2 ^ 8) with 256. change (2 ^ 4) with 16.
  destruct (Z.lt_ge_cases a 16) as [H1|H1].
  { destruct F as [|f]; [lia|]. rewrite digits_last by lia.
    unfold pad_left. simpl. cbv beta iota fix delta [String.append]. hexeq. }
  pose proof (Hbits 4%nat ltac:(simpl; lia)) as B4.
  destruct F as [|[|f]]; [lia|lia|].
  rewrite digits_step by lia.
  destruct (Z.lt_ge_cases a 256) as [H2|H2].
  { rewrite digits_last by (Z.div_mod_to_equations; lia).
    unfold pad_left. simpl. cbv beta iota fix delta [String.append]. hexeq. }
  pose proof (Hbits 8%nat ltac:(simpl; lia)) as B8.
  destruct f as [|f]; [lia|].
  rewrite digits_step by (Z.div_mod_to_equations; lia).
  destruct (Z.lt_ge_cases a 4096) as [H3|H3].
  { rewrite digits_last by (Z.div_mod_to_equations; lia).
    unfold pad_left. simpl. cbv beta iota fix delta [String.append]. hexeq. }
  pose proof (Hbits 12%nat ltac:(simpl; lia)) as B12.
  destruct f as [|f]; [lia|].
  rewrite digits_step by (Z.div_mod_to_equations; lia).
  rewrite digits_last by (Z.div_mod_to_equations; lia).
  unfold pad_left. simpl. cbv beta iota fix delta [String.append]. hexeq.
Qed.

Lemma sum_take_lookup (lines : list line) i ln :
  lines !! i = Some ln ->
  (list_sum (map l_size (take i lines)) + l_size ln <= list_sum (map l_size lines))%nat.
Proof.
  revert i. induction lines as [|x lines IH]; intros [|i] H; simpl in H; try discriminate.
  - injection H as <-. simpl. lia.
  - specialize (IH _ H). simpl. lia.
Qed.

(** On a byte image every label names a 16-bit address or one within the
    relative-jump range of an emitted line; when the image lies well inside
    the 16-bit space every label is [L] and four hexadecimal digits. *)
Theorem labels_near_lines :
  (forall (image : list Z) (start : Z) (ml : option nat) (lines : list line) (s : Dis),
     Forall is_byte image -> decode image start ml = inr (lines, s) ->
     forall a l, labels s !! a = Some l ->
     (0 <= a <= 0xFFFF) \/ exists ln, In ln lines /\ l_addr ln - 126 <= a <= l_addr ln + 129)
  /\ (forall (image : list Z) (start : Z) (ml : option nat) (lines : list line) (s : Dis),
        Forall is_byte image -> 126 <= start -> start + Z.of_nat (length image) + 128 <= 0xFFFF ->
        decode image start ml = inr (lines, s) ->
        forall a l, labels s !! a = Some l -> l = four_digit_name a).
Proof.
  assert (Hrange : forall (image : list Z) (start : Z) (ml : option nat) (lines : list line) (s : Dis),
     Forall is_byte image -> decode image start ml = inr (lines, s) ->
     forall a l, labels s !! a = Some l ->
     (0 <= a <= 0xFFFF) \/ exists ln, In ln lines /\ l_addr ln - 126 <= a <= l_addr ln + 129).
  { intros image start ml lines s Hb H a l Ha. unfold decode in H.
    exact (loop_targets _ _ _ _ _ _ H Hb a l Ha (lookup_empty a)). }
  split; [exact Hrange|].
  intros image start ml lines s Hb Hlo Hhi H a l Ha.
  pose proof (loop_evolves _ _ _ _ _ _ H) as [_ _ _ Hbd _ Hc].
  specialize (Hc (map_Forall_empty _) a l Ha). simpl in Hc, Hbd. rewrite Hc.
  apply format_addr_four_digits.
  destruct (Hrange _ _ _ _ _ Hb H a l Ha) as [X|[ln [Hin X]]]; [exact X|].
  unfold decode in H. destruct (loop_tiles _ _ _ _ _ _ H) as [H1 [H2 H3]]. simpl in H1, H3.
  apply list_elem_of_In, list_elem_of_lookup_1 in Hin. destruct Hin as [i Hi].
  pose proof (sum_take_lookup _ _ _ Hi) as Hs.
  pose proof (proj1 (Forall_lookup _ _) H2 _ _ Hi) as Hpos. simpl in Hpos.
  rewrite (H3 _ _ Hi) in X. specialize (Hbd ltac:(lia)). lia.
Qed.

Lemma labels_near_lines_witness :
  (forall a l, labels (mkDis [0x18; 0x80] 2 0x4000 {[0x3F82 := "L3F82"%string]}) !! a = Some l ->
     (0 <= a <= 0xFFFF) \/ exists ln, In ln [mkLine 0x4000 "" "JR L3F82" 2]
                                     /\ l_addr ln - 126 <= a <= l_addr ln + 129)
  /\ (forall a l, labels (mkDis [0x18; 0x80] 2 0x4000 {[0x3F82 := "L3F82"%string]}) !! a = Some l ->
        l = four_digit_name a).
Proof.
  split.
  - apply (proj1 labels_near_lines [0x18; 0x80] 0x4000 None);
      [repeat constructor; unfold is_byte; lia | vm_compute; reflexivity].
  - apply (proj2 labels_near_lines [0x18; 0x80] 0x4000 None
             [mkLine 0x4000 "" "JR L3F82" 2]);
      [repeat constructor; unfold is_byte; lia | lia | simpl; lia | vm_compute; reflexivity].
Defined.

(** [read_word] returns [None] and keeps the object when fewer than two
    bytes are left; otherwise it reads the two bytes little-endian into a
    16-bit value and advances by two. *)
Theorem read_word_little_endian (s : Dis) :
  ((length (data s) <= pos s + 1)%nat -> read_word s = inr (None, s))
  /\ (forall lo hi : Z,
        nth_error (data s) (pos s) = Some lo -> nth_error (data s) (S (pos s)) = Some hi ->
        is_byte lo -> is_byte hi ->
        read_word s = inr (Some (lo + 256 * hi), set_pos s (pos s + 2))
        /\ 0 <= lo + 256 * hi <= 0xFFFF).
Proof.
  split.
  - intros H. destruct (read_word_cases s) as [[_ E]|[H' _]]; [exact E | lia].
  - intros lo hi Hlo Hhi Blo Bhi.
    assert (Hlt : (S (pos s) < length (data s))%nat) by (apply nth_error_Some; congruence).
    destruct (read_word_cases s) as [[H _]|[_ E]]; [lia|]. rewrite E.
    rewrite (nth_error_nth _ _ _ Hlo).
    replace (pos s + 1)%nat with (S (pos s)) by lia. rewrite (nth_error_nth _ _ _ Hhi).
    rewrite lor_bytes by assumption. unfold is_byte in *. split; [reflexivity | lia].
Qed.

Lemma read_word_little_endian_witness :
  (read_word (mkDis [0xC3; 0x34; 0x12] 2 0 ∅) = inr (None, mkDis [0xC3; 0x34; 0x12] 2 0 ∅))
  /\ (read_word (mkDis [0xC3; 0x34; 0x12] 1 0 ∅)
      = inr (Some (0x34 + 256 * 0x12), set_pos (mkDis [0xC3; 0x34; 0x12] 1 0 ∅) (1 + 2))
      /\ 0 <= 0x34 + 256 * 0x12 <= 0xFFFF).
Proof.
  split.
  - apply (proj1 (read_word_little_endian (mkDis [0xC3; 0x34; 0x12] 2 0 ∅))). simpl. lia.
  - apply (proj2 (read_word_little_endian (mkDis [0xC3; 0x34; 0x12] 1 0 ∅)));
      [reflexivity | reflexivity | unfold is_byte; lia | unfold is_byte; lia].
Defined.

(** [disassemble_instruction] keeps the data and the start address, moves
    the cursor forward and not past the end, keeps every existing label,
    and preserves the canonical form of the object. *)
Theorem decode_step_frame (s : Dis) (r : result) (s' : Dis) :
  disassemble_instruction s = inr (r, s') ->
  data s' = data s /\ start_addr s' = start_addr s
  /\ (pos s <= pos s')%nat
  /\ ((pos s <= length (data s))%nat -> (pos s' <= length (data s))%nat)
  /\ (forall a l, labels s !! a = Some l -> labels s' !! a = Some l)
  /\ (canon s -> canon s').
Proof.
  intros H. destruct (disassemble_instruction_evolves _ _ _ H) as [D S P B L C].
  repeat split; auto. intros a l Hl. exact (lookup_weaken _ _ _ _ Hl L).
Qed.

Lemma decode_step_frame_witness :
  let s := init [0x18; 0xFE] 0 in
  let s' := mkDis [0x18; 0xFE] 2 0 {[0 := "L0000"%string]} in
  data s' = data s /\ start_addr s' = start_addr s
  /\ Nat.le (pos s) (pos s')
  /\ (Nat.le (pos s) (length (data s)) -> Nat.le (pos s') (length (data s)))
  /\ (forall a l, labels s !! a = Some l -> labels s' !! a = Some l)
  /\ (canon s -> canon s').
Proof.
  intros s s'.
  apply (decode_step_frame s (Some "JR L0000"%string, 2%nat)).
  vm_compute. reflexivity.
Defined.

(** A [0xCB] prefix followed by any byte always decodes to a two-byte
    instruction whose mnemonic is one of the eleven rotate, shift and bit
    operations. *)
Theorem cb_prefix_always_decodes (s : Dis) (b : Z) :
  nth_error (data s) (pos s) = Some 0xCB ->
  nth_error (data s) (S (pos s)) = Some b ->
  exists w rest,
    disassemble_instruction s = inr ((Some (w ++ " " ++ rest)%string, 2%nat),
                                     set_pos (set_pos s (S (pos s))) (S (S (pos s))))
    /\ In w ["RLC"; "RRC"; "RL"; "RR"; "SLA"; "SRA"; "SLL"; "SRL"; "BIT"; "RES"; "SET"]%string.
Proof.
  intros Hp Hb.
  assert (Hlt : (S (pos s) < length (data s))%nat) by (apply nth_error_Some; congruence).
  rewrite (disassemble_instruction_run s 0xCB Hp). cbv zeta. cbn [Z.eqb Pos.eqb]. cbv iota.
  unfold disassemble_cb_prefix. rewrite bind_run, read_byte_run by (simpl; lia).
  cbn [pos data set_pos]. rewrite (nth_error_nth _ _ _ Hb). cbv beta iota.
  assert (Hop : 0 <= Z.land (Z.shiftr b 3) 7 < 8).
  { change 7 with (Z.ones 3). rewrite Z.land_ones by lia. apply Z.mod_pos_bound. lia. }
  assert (Hbo : 0 <= Z.land (Z.shiftr b 6) 3 < 4).
  { change 3 with (Z.ones 2). rewrite Z.land_ones by lia. apply Z.mod_pos_bound. lia. }
  destruct (Z.eqb (Z.land (Z.shiftr b 6) 3) 0) eqn:E0.
  - eexists _, _. split; [reflexivity|].
    assert (Hi : (Z.to_nat (Z.land (Z.shiftr b 3) 7) < length CB_OPS)%nat)
      by (simpl; lia).
    pose proof (nth_In CB_OPS EmptyString Hi) as HI. simpl in HI |- *. tauto.
  - destruct (Z.eqb (Z.land (Z.shiftr b 6) 3) 1) eqn:E1;
      [exists "BIT"%string; eexists; split; [reflexivity | simpl; tauto]|].
    destruct (Z.eqb (Z.land (Z.shiftr b 6) 3) 2) eqn:E2;
      [exists "RES"%string; eexists; split; [reflexivity | simpl; tauto]|].
    destruct (Z.eqb (Z.land (Z.shiftr b 6) 3) 3) eqn:E3;
      [exists "SET"%string; eexists; split; [reflexivity | simpl; tauto]|].
    apply Z.eqb_neq in E0, E1, E2, E3. lia.
Qed.

Lemma cb_prefix_always_decodes_witness :
  exists w rest,
    disassemble_instruction (init [0xCB; 0x7E] 0)
    = inr ((Some (w ++ " " ++ rest)%string, 2%nat),
           set_pos (set_pos (init [0xCB; 0x7E] 0) 1) 2)
    /\ In w ["RLC"; "RRC"; "RL"; "RR"; "SLA"; "SRA"; "SLL"; "SRL"; "BIT"; "RES"; "SET"]%string.
Proof. apply (cb_prefix_always_decodes (init [0xCB; 0x7E] 0) 0x7E); reflexivity. Defined.
